(** * NFT FORGE: asset lifecycle and canvas compositing

    A shallow embedding of [src/App.tsx], [src/services/geminiService.ts]
    and the type declarations of [types.ts], followed by the properties of
    the asset history, the listing set, the selection, the generation
    service and the edit pipeline.

    Conventions.
    - A JavaScript string is its sequence of UTF-16 code units.
    - A React state cell is a field of [AppState]; a setter [setX] is a
      function on [AppState]; a functional update [setX(prev => f prev)]
      is [setX_with f].
    - A JavaScript [number] that the program only ever uses as an integer
      (slider values, degrees, pixel sizes, timestamps) is a [Z];
      [%] is [Z.rem] (the sign follows the dividend).
    - What the program obtains from its platform (the environment
      variable, the model backend, the image decoder, the canvas encoder,
      the JSON parser) is a field of an environment record or a section
      variable. *)

From Stdlib Require Import ZArith NArith Ascii String.
From stdpp Require Import base list gmap sets pretty.

Local Open Scope Z_scope.

(** ** JavaScript strings *)

Abbreviation js_string := (list N).

(** A string literal of the source whose characters are all ASCII. *)
Definition lit (s : string) : js_string :=
  N_of_ascii <$> list_ascii_of_string s.

(** [!s] on a string is true exactly for the empty string. *)
Definition falsy (s : js_string) : bool :=
  match s with [] => true | _ => false end.

(** WhiteSpace and LineTerminator code points of ECMAScript, all of them
    in the Basic Multilingual Plane: TAB, LF, VT, FF, CR, SP, NBSP,
    U+1680, U+2000..U+200A, U+2028, U+2029, U+202F, U+205F, U+3000,
    U+FEFF. *)
Definition is_white_space (c : N) : bool :=
  ((c =? 9) || (c =? 10) || (c =? 11) || (c =? 12) || (c =? 13)
   || (c =? 32) || (c =? 160) || (c =? 5760)
   || ((8192 <=? c) && (c <=? 8202))
   || (c =? 8232) || (c =? 8233) || (c =? 8239) || (c =? 8287)
   || (c =? 12288) || (c =? 65279))%N.

Fixpoint dropWhile {A} (p : A → bool) (l : list A) : list A :=
  match l with
  | [] => []
  | x :: l' => if p x then dropWhile p l' else l
  end.

Definition trimStart (s : js_string) : js_string := dropWhile is_white_space s.
Definition trimEnd (s : js_string) : js_string :=
  reverse (dropWhile is_white_space (reverse s)).

(** [String.prototype.trim]. *)
Definition trim (s : js_string) : js_string := trimEnd (trimStart s).

(** ** [Array.prototype.slice] and [String.prototype.slice] *)

(** A relative index is clamped into [0 .. len]; a negative one counts
    from the end. *)
Definition relative_index (len k : Z) : Z :=
  if k <? 0 then Z.max (len + k) 0 else Z.min k len.

Definition slice {A} (l : list A) (start stop : Z) : list A :=
  let len := Z.of_nat (length l) in
  let k := relative_index len start in
  let final := relative_index len stop in
  take (Z.to_nat (final - k)) (drop (Z.to_nat k) l).

(** ** types.ts *)

Inductive AspectRatio := AR_1_1 | AR_3_4 | AR_4_3 | AR_9_16 | AR_16_9.

Global Instance AspectRatio_eq_dec : EqDecision AspectRatio.
Proof. solve_decision. Defined.

Module NFT.
Record GeneratedNFT := mk {
  id : js_string;
  url : js_string;
  prompt : js_string;
  timestamp : Z;
  aspectRatio : AspectRatio;
}.

(** The object spread [{ ...nft, url: u }]. *)
Definition with_url (u : js_string) (nft : GeneratedNFT) : GeneratedNFT :=
  {| id := id nft; url := u; prompt := prompt nft;
     timestamp := timestamp nft; aspectRatio := aspectRatio nft |}.
End NFT.
Abbreviation GeneratedNFT := NFT.GeneratedNFT.

Global Instance GeneratedNFT_eq_dec : EqDecision GeneratedNFT.
Proof. solve_decision. Defined.

(** ** Thrown values and results of awaited calls *)

Record JsError := Error { message : js_string }.

Inductive outcome (A : Type) :=
| Return (a : A)
| Throw (e : JsError).
Arguments Return {A} a.
Arguments Throw {A} e.

(** ** Effects of the generation service

    A computation of the service logs the requests it sends to the model
    backend and ends by returning or by throwing. *)

Module GeminiService.

(** The argument of [ai.models.generateContent]: the model name, the
    text of the single part of [contents], and
    [config.imageConfig.aspectRatio]. *)
Record GenerateContentParameters := mkRequest {
  model : js_string;
  contents_text : js_string;
  imageConfig_aspectRatio : AspectRatio;
}.

(** The part of the backend's response that the service reads. Optional
    members are [option]s; [None] is [undefined]. *)
Record Blob := { data : js_string }.
Record Part := { inlineData : option Blob }.
Record Content := { parts : option (list Part) }.
Record Candidate := { content : option Content }.
Record GenerateContentResponse := { candidates : option (list Candidate) }.

(** What the service finds around it: [process.env.API_KEY] and the
    backend behind [ai.models.generateContent]. *)
Record World := {
  API_KEY : option js_string;
  generateContent : GenerateContentParameters → outcome GenerateContentResponse;
}.

Definition Eff (A : Type) : Type := list GenerateContentParameters * outcome A.

Definition ret {A} (a : A) : Eff A := ([], Return a).
Definition throw {A} (e : JsError) : Eff A := ([], Throw e).
Definition bind {A B} (m : Eff A) (k : A → Eff B) : Eff B :=
  match m with
  | (log, Return a) => let '(log', r) := k a in (log ++ log', r)
  | (log, Throw e) => (log, Throw e)
  end.
Definition try_catch {A} (m : Eff A) (h : JsError → Eff A) : Eff A :=
  match m with
  | (log, Return a) => (log, Return a)
  | (log, Throw e) => let '(log', r) := h e in (log ++ log', r)
  end.
Definition await_generateContent (w : World) (req : GenerateContentParameters)
  : Eff GenerateContentResponse := ([req], generateContent w req).

Notation "'let*' x ':=' m 'in' k" := (bind m (λ x, k))
  (at level 10, x name, m at level 100, k at level 200, only parsing).

Definition MODEL : js_string := lit "gemini-2.5-flash-image".
Definition STYLE_PREFIX : js_string :=
  lit "High quality NFT digital art, professional lighting, unique concept, highly detailed, masterwork style: ".
Definition DATA_URL_PREFIX : js_string := lit "data:image/png;base64,".
Definition API_KEY_MISSING : JsError :=
  Error (lit "API Key is missing. Please ensure it's configured in the environment.").
Definition EXTRACTION_FAILED : JsError :=
  Error (lit "Failed to extract image from model response.").

(** [!apiKey]: the variable is unset or is the empty string. *)
Definition apiKey_missing (w : World) : bool :=
  match API_KEY w with
  | None => true
  | Some k => falsy k
  end.

(** [response.candidates && response.candidates[0]?.content?.parts]:
    the parts of the first candidate, when every link of the chain is
    there. *)
Definition first_candidate_parts (response : GenerateContentResponse)
  : option (list Part) :=
  match candidates response with
  | None => None
  | Some cs =>
      match cs with
      | [] => None
      | c :: _ =>
          match content c with
          | None => None
          | Some ct => parts ct
          end
      end
  end.

(** The [for ... of] loop with its [break]: the first part that carries
    [inlineData] decides [imageUrl]; without one it keeps its value. *)
Fixpoint scan_parts (imageUrl : js_string) (ps : list Part) : js_string :=
  match ps with
  | [] => imageUrl
  | part :: rest =>
      match inlineData part with
      | Some blob => DATA_URL_PREFIX ++ data blob
      | None => scan_parts imageUrl rest
      end
  end.

Definition extract_imageUrl (response : GenerateContentResponse) : js_string :=
  match first_candidate_parts response with
  | Some ps => scan_parts [] ps
  | None => []
  end.

(** The object literal passed to [ai.models.generateContent]. *)
Definition request_for (prompt : js_string) (aspectRatio : AspectRatio)
  : GenerateContentParameters :=
  {| model := MODEL;
     contents_text := STYLE_PREFIX ++ prompt;
     imageConfig_aspectRatio := aspectRatio |}.

Definition generateNFTImage (w : World) (prompt : js_string)
    (aspectRatio : AspectRatio) : Eff js_string :=
  if apiKey_missing w then throw API_KEY_MISSING
  else
    try_catch
      (let* response :=
         await_generateContent w (request_for prompt aspectRatio) in
       let imageUrl := extract_imageUrl response in
       if falsy imageUrl then throw EXTRACTION_FAILED
       else ret imageUrl)
      (λ error, throw error).

(** A response carries an inline image payload when some part of some
    candidate has [inlineData]. *)
Definition part_has_inline (p : Part) : bool :=
  match inlineData p with Some _ => true | None => false end.
Definition candidate_has_inline (c : Candidate) : bool :=
  match content c with
  | Some ct => match parts ct with
               | Some ps => existsb part_has_inline ps
               | None => false
               end
  | None => false
  end.
Definition has_inline_payload (response : GenerateContentResponse) : bool :=
  match candidates response with
  | Some cs => existsb candidate_has_inline cs
  | None => false
  end.

End GeminiService.

(** ** App.tsx: state *)

Module App.
Import GeminiService.

Inductive ViewMode := forge | marketplace.
Inductive ShareStatus := idle | sharing | success | share_error.
Inductive Platform := platform_x | platform_linkedin | platform_github.

Record EditState := mkEdit {
  brightness : Z;
  contrast : Z;
  grayscale : Z;
  sepia : Z;
  rotation : Z;
}.

Definition INITIAL_EDIT_STATE : EditState :=
  {| brightness := 100; contrast := 100; grayscale := 0; sepia := 0;
     rotation := 0 |}.

(** The state cells of the component, one field per [useState]. The
    listed ids are a JavaScript [Set]; only membership and size are
    read from it, so it is a finite set. *)
Record AppState := mkApp {
  viewMode : ViewMode;
  prompt : js_string;
  aspectRatio : AspectRatio;
  isGenerating : bool;
  history : list GeneratedNFT;
  listedIds : gset js_string;
  error : option js_string;
  currentNFT : option GeneratedNFT;
  shareStatus : ShareStatus;
  isEditing : bool;
  editState : EditState;
}.

Definition initialState : AppState :=
  {| viewMode := forge; prompt := []; aspectRatio := AR_1_1;
     isGenerating := false; history := []; listedIds := ∅;
     error := None; currentNFT := None; shareStatus := idle;
     isEditing := false; editState := INITIAL_EDIT_STATE |}.

(** *** Setters *)

Definition setViewMode (v : ViewMode) (st : AppState) : AppState :=
  mkApp v (prompt st) (aspectRatio st) (isGenerating st) (history st)
    (listedIds st) (error st) (currentNFT st) (shareStatus st)
    (isEditing st) (editState st).
Definition setPrompt (v : js_string) (st : AppState) : AppState :=
  mkApp (viewMode st) v (aspectRatio st) (isGenerating st) (history st)
    (listedIds st) (error st) (currentNFT st) (shareStatus st)
    (isEditing st) (editState st).
Definition setAspectRatio (v : AspectRatio) (st : AppState) : AppState :=
  mkApp (viewMode st) (prompt st) v (isGenerating st) (history st)
    (listedIds st) (error st) (currentNFT st) (shareStatus st)
    (isEditing st) (editState st).
Definition setIsGenerating (v : bool) (st : AppState) : AppState :=
  mkApp (viewMode st) (prompt st) (aspectRatio st) v (history st)
    (listedIds st) (error st) (currentNFT st) (shareStatus st)
    (isEditing st) (editState st).
Definition setHistory (v : list GeneratedNFT) (st : AppState) : AppState :=
  mkApp (viewMode st) (prompt st) (aspectRatio st) (isGenerating st) v
    (listedIds st) (error st) (currentNFT st) (shareStatus st)
    (isEditing st) (editState st).
Definition setListedIds (v : gset js_string) (st : AppState) : AppState :=
  mkApp (viewMode st) (prompt st) (aspectRatio st) (isGenerating st)
    (history st) v (error st) (currentNFT st) (shareStatus st)
    (isEditing st) (editState st).
Definition setError (v : option js_string) (st : AppState) : AppState :=
  mkApp (viewMode st) (prompt st) (aspectRatio st) (isGenerating st)
    (history st) (listedIds st) v (currentNFT st) (shareStatus st)
    (isEditing st) (editState st).
Definition setCurrentNFT (v : option GeneratedNFT) (st : AppState) : AppState :=
  mkApp (viewMode st) (prompt st) (aspectRatio st) (isGenerating st)
    (history st) (listedIds st) (error st) v (shareStatus st)
    (isEditing st) (editState st).
Definition setIsEditing (v : bool) (st : AppState) : AppState :=
  mkApp (viewMode st) (prompt st) (aspectRatio st) (isGenerating st)
    (history st) (listedIds st) (error st) (currentNFT st) (shareStatus st)
    v (editState st).
Definition setEditState (v : EditState) (st : AppState) : AppState :=
  mkApp (viewMode st) (prompt st) (aspectRatio st) (isGenerating st)
    (history st) (listedIds st) (error st) (currentNFT st) (shareStatus st)
    (isEditing st) v.

(** Functional updates [setX(prev => f prev)]. *)
Definition setHistory_with (f : list GeneratedNFT → list GeneratedNFT)
    (st : AppState) : AppState := setHistory (f (history st)) st.
Definition setListedIds_with (f : gset js_string → gset js_string)
    (st : AppState) : AppState := setListedIds (f (listedIds st)) st.

(** The id of the selection, [currentNFT?.id]. *)
Definition selection (st : AppState) : option js_string :=
  NFT.id <$> currentNFT st.

Definition CAPACITY : Z := 12.

(** *** handleGenerate *)

Definition ENTER_PROMPT : js_string :=
  lit "Please enter a prompt to generate an image.".
Definition GENERATION_FAILED : js_string :=
  lit "An error occurred while generating the image.".

(** [setHistory(prev => [newNFT, ...prev].slice(0, 12))]. *)
Definition create (newNFT : GeneratedNFT) (prev : list GeneratedNFT)
  : list GeneratedNFT := slice (newNFT :: prev) 0 CAPACITY.

(** The handler up to its [await]: the validation, then the three
    setters. The boolean tells whether the service is called. *)
Definition handleGenerate_start (st : AppState) : AppState * bool :=
  if falsy (trim (prompt st)) then (setError (Some ENTER_PROMPT) st, false)
  else (setIsEditing false (setError None (setIsGenerating true st)), true).

(** The handler after its [await], run on the state of that moment:
    [p] and [ar] are the prompt and aspect ratio the handler captured,
    [uuid] and [now] what [crypto.randomUUID()] and [Date.now()] give. *)
Definition handleGenerate_settle (uuid : js_string) (now : Z)
    (p : js_string) (ar : AspectRatio) (r : outcome js_string)
    (st : AppState) : AppState :=
  setIsGenerating false
    match r with
    | Return imageUrl =>
        let newNFT := NFT.mk uuid imageUrl p now ar in
        setHistory_with (create newNFT) (setCurrentNFT (Some newNFT) st)
    | Throw err =>
        setError (Some (if falsy (message err) then GENERATION_FAILED
                        else message err)) st
    end.

Definition handleGenerate (w : World) (uuid : js_string) (now : Z)
    (st : AppState) : list GenerateContentParameters * AppState :=
  let '(st1, called) := handleGenerate_start st in
  if called then
    let '(log, r) := generateNFTImage w (prompt st) (aspectRatio st) in
    (log, handleGenerate_settle uuid now (prompt st) (aspectRatio st) r st1)
  else ([], st1).

(** *** listOnPlatform *)

(** What the handler reads from the browser window;
    [encodeURIComponent] is the encoding of a well-formed string. *)
Record Window := {
  location_href : js_string;
  encodeURIComponent : js_string → js_string;
}.

Definition QUOTE : js_string := [34%N].

(** Surrogate code units: U+D800..U+DBFF lead, U+DC00..U+DFFF trail. *)
Definition is_high_surrogate (c : N) : bool := ((55296 <=? c) && (c <=? 56319))%N.
Definition is_low_surrogate (c : N) : bool := ((56320 <=? c) && (c <=? 57343))%N.

(** A string is well formed when every surrogate is half of a pair. On
    any other string [encodeURIComponent] throws a [URIError]. *)
Fixpoint well_formed_utf16 (s : js_string) : bool :=
  match s with
  | [] => true
  | c :: rest =>
      if is_high_surrogate c then
        match rest with
        | d :: rest' => is_low_surrogate d && well_formed_utf16 rest'
        | [] => false
        end
      else if is_low_surrogate c then false
      else well_formed_utf16 rest
  end.

(** The address built by the [switch]; [None] when building it throws,
    which only the [github] branch can do. *)
Definition shareUrl (win : Window) (platform : Platform) (nft : GeneratedNFT)
  : option js_string :=
  let text := lit "Check out my latest AI-forged NFT: " ++ QUOTE
              ++ NFT.prompt nft ++ QUOTE ++ lit " %23NFTForge %23AIArt" in
  let url := location_href win in
  match platform with
  | platform_x => Some (lit "https://twitter.com/intent/tweet?text=" ++ text
                        ++ lit "&url=" ++ url)
  | platform_linkedin =>
      Some (lit "https://www.linkedin.com/sharing/share-offsite/?url=" ++ url)
  | platform_github =>
      if well_formed_utf16 (NFT.prompt nft) then
        Some (lit "https://github.com/new?name=NFT-Asset-"
              ++ slice (NFT.id nft) 0 8 ++ lit "&description="
              ++ encodeURIComponent win (NFT.prompt nft))
      else None
  end.

(** [setListedIds(prev => new Set(prev).add(nft.id))]. *)
Definition markListed (id : js_string) (prev : gset js_string) : gset js_string :=
  {[ id ]} ∪ prev.

(** Returns the address given to [window.open] and the next state. When
    building the address throws, the handler ends there: no window is
    opened and no setter runs. *)
Definition listOnPlatform (win : Window) (platform : Platform)
    (nft : GeneratedNFT) (st : AppState) : option js_string * AppState :=
  match shareUrl win platform nft with
  | Some address =>
      (Some address, setListedIds_with (markListed (NFT.id nft)) st)
  | None => (None, st)
  end.

(** *** deleteFromHistory *)

(** [next = new Set(prev); next.delete(id)]. *)
Definition unlist (id : js_string) (prev : gset js_string) : gset js_string :=
  prev ∖ {[ id ]}.

Definition deleteFromHistory (id : js_string) (st : AppState) : AppState :=
  let st1 := setHistory_with (filter (λ item, NFT.id item ≠ id)) st in
  let st2 := setListedIds_with (unlist id) st1 in
  if decide (selection st = Some id) then setCurrentNFT None st2 else st2.

(** *** applyEdits *)

(** A decoded image: its intrinsic size and the address it came from. *)
Record HTMLImage := { img_src : js_string; img_width : Z; img_height : Z }.

(** Calls on the 2d context, with their arguments; a coordinate [n/2]
    is the pair of [n] and [2], an angle is kept in degrees (the
    argument of [ctx.rotate] is that many times [Math.PI / 180]). *)
Inductive CanvasOp :=
| clearRect (cx cy cw ch : Z)
| set_filter (f : js_string)
| translate (tx_twice ty_twice : Z)
| rotate (degrees : Z)
| drawImage (img : HTMLImage) (dx_twice dy_twice : Z).

(** The canvas after the handler has run: its size and the calls made
    since the size was last assigned (assigning [width] or [height]
    resets the bitmap and the context state). *)
Record Canvas := { width : Z; height : Z; ops : list CanvasOp }.

Record Browser := {
  canvasRef_current : bool;
  getContext_2d : bool;
  image_onload : js_string → option HTMLImage;
  toDataURL_png : Canvas → js_string;
}.

Definition percent (n : Z) : js_string := lit (pretty n) ++ lit "%".

Definition filter_string (es : EditState) : js_string :=
  lit "brightness(" ++ percent (brightness es) ++ lit ") contrast("
  ++ percent (contrast es) ++ lit ") grayscale(" ++ percent (grayscale es)
  ++ lit ") sepia(" ++ percent (sepia es) ++ lit ")".

Definition isHorizontalRotation (es : EditState) : bool :=
  negb (Z.rem (rotation es) 180 =? 0).

(** The canvas the handler paints for image [img]. *)
Definition paint (es : EditState) (img : HTMLImage) : Canvas :=
  let w := if isHorizontalRotation es then img_height img else img_width img in
  let h := if isHorizontalRotation es then img_width img else img_height img in
  {| width := w; height := h;
     ops := [ clearRect 0 0 w h;
              set_filter (filter_string es);
              translate w h;
              rotate (rotation es);
              drawImage img (- img_width img) (- img_height img) ] |}.

(** [prev.map(item => item.id === currentNFT.id ? updatedNFT : item)]. *)
Definition replace_by_id (target : js_string) (updatedNFT : GeneratedNFT)
    (prev : list GeneratedNFT) : list GeneratedNFT :=
  (λ item, if decide (NFT.id item = target) then updatedNFT else item) <$> prev.

(** The handler returns early without a selection, a canvas or a
    context; with an image that never loads its promise stays pending
    and nothing after the [await] runs. The canvas is returned with the
    next state when it was painted. *)
Definition applyEdits (br : Browser) (st : AppState) : option Canvas * AppState :=
  match currentNFT st with
  | None => (None, st)
  | Some cur =>
      if negb (canvasRef_current br) then (None, st)
      else if negb (getContext_2d br) then (None, st)
      else
        match image_onload br (NFT.url cur) with
        | None => (None, st)
        | Some img =>
            let canvas := paint (editState st) img in
            let editedUrl := toDataURL_png br canvas in
            let updatedNFT := NFT.with_url editedUrl cur in
            (Some canvas,
             setEditState INITIAL_EDIT_STATE
               (setIsEditing false
                  (setHistory_with (replace_by_id (NFT.id cur) updatedNFT)
                     (setCurrentNFT (Some updatedNFT) st))))
        end
  end.

(** *** Inline handlers of the edit panel and of the history grid *)

Inductive SliderProp := p_brightness | p_contrast | p_grayscale.

(** [setEditState({...editState, [prop]: parseInt(e.target.value)})]. *)
Definition onSlider (prop : SliderProp) (value : Z) (st : AppState) : AppState :=
  let es := editState st in
  setEditState
    match prop with
    | p_brightness => mkEdit value (contrast es) (grayscale es) (sepia es) (rotation es)
    | p_contrast => mkEdit (brightness es) value (grayscale es) (sepia es) (rotation es)
    | p_grayscale => mkEdit (brightness es) (contrast es) value (sepia es) (rotation es)
    end st.

(** [setEditState({...editState, rotation: (editState.rotation + 90) % 360})]. *)
Definition onRotate (st : AppState) : AppState :=
  let es := editState st in
  setEditState (mkEdit (brightness es) (contrast es) (grayscale es) (sepia es)
                  (Z.rem (rotation es + 90) 360)) st.

Definition onReset (st : AppState) : AppState := setEditState INITIAL_EDIT_STATE st.

(** The Cancel button: [setIsEditing(false)]. *)
Definition cancelEdit (st : AppState) : AppState := setIsEditing false st.

(** The sliders button of the selection bar: [setIsEditing(true)]. *)
Definition enterEdit (st : AppState) : AppState := setIsEditing true st.

(** A click on a history tile: [setCurrentNFT(item); setIsEditing(false)]. *)
Definition select (item : GeneratedNFT) (st : AppState) : AppState :=
  setIsEditing false (setCurrentNFT (Some item) st).

(** *** The mount effect: loading from local storage *)

(** [localStorage.getItem] of the two keys; [None] is [null]. *)
Record LocalStorage := {
  nft_history : option js_string;
  nft_listed : option js_string;
}.

Section Load.
(** [JSON.parse] at the two types the component stores; [None] is a
    thrown [SyntaxError]. *)
Variable JSON_parse_history : js_string → option (list GeneratedNFT).
Variable JSON_parse_listed : js_string → option (list js_string).

Definition load_history (ls : LocalStorage) (st : AppState) : AppState :=
  match nft_history ls with
  | None => st
  | Some savedHistory =>
      if falsy savedHistory then st
      else
        match JSON_parse_history savedHistory with
        | Some parsed =>
            let st1 := setHistory parsed st in
            match parsed with
            | first :: _ => setCurrentNFT (Some first) st1
            | [] => st1
            end
        | None => st
        end
  end.

Definition load_listed (ls : LocalStorage) (st : AppState) : AppState :=
  match nft_listed ls with
  | None => st
  | Some savedListed =>
      if falsy savedListed then st
      else
        match JSON_parse_listed savedListed with
        | Some ids => setListedIds (list_to_set ids) st
        | None => st
        end
  end.

Definition load (ls : LocalStorage) (st : AppState) : AppState :=
  load_listed ls (load_history ls st).
End Load.

(** *** The sync effect: writing to local storage *)

Section Persist.
(** [JSON.stringify] at the two types the component stores. *)
Variable JSON_stringify_history : list GeneratedNFT → js_string.
Variable JSON_stringify_listed : list js_string → js_string.

(** The two [localStorage.setItem] calls; [Array.from(listedIds)] is the
    listed ids as an array. *)
Definition persist (st : AppState) : LocalStorage :=
  {| nft_history := Some (JSON_stringify_history (history st));
     nft_listed := Some (JSON_stringify_listed (elements (listedIds st))) |}.
End Persist.

(** *** handleDownload *)

Definition UNDERSCORE : N := 95%N.

(** [s.replace(/\s+/g, '_')], as a scan from the left: [in_run] tells
    whether the previous code unit was whitespace, so that a maximal run
    of whitespace yields one underscore. The class [\s] is the set of
    [is_white_space]. *)
Fixpoint replace_whitespace_runs (in_run : bool) (s : js_string) : js_string :=
  match s with
  | [] => []
  | c :: rest =>
      if is_white_space c then
        if in_run then replace_whitespace_runs true rest
        else UNDERSCORE :: replace_whitespace_runs true rest
      else c :: replace_whitespace_runs false rest
  end.

(** The anchor element the handler builds and clicks. *)
Record Anchor := { href : js_string; download : js_string }.

(** [toLowerCase] is [String.prototype.toLowerCase]. *)
Definition handleDownload (toLowerCase : js_string → js_string)
    (url fileName : js_string) : Anchor :=
  {| href := url;
     download := lit "nft_"
                 ++ toLowerCase (replace_whitespace_runs false fileName)
                 ++ lit ".png" |}.

(** *** The component as a transition system

    One event per control of the page. An awaited call is taken to
    settle before the next event. *)

Inductive Event :=
| ClickView (v : ViewMode)
| TypePrompt (p : js_string)
| ClickAspectRatio (ar : AspectRatio)
| ClickGenerate (w : World) (uuid : js_string) (now : Z)
| ClickTile (item : GeneratedNFT)
| ClickDelete (item : GeneratedNFT)
| ClickEdit
| MoveSlider (prop : SliderProp) (value : Z)
| ClickRotate
| ClickReset
| ClickCancel
| ClickSave (br : Browser)
| ClickShare (win : Window) (platform : Platform) (nft : GeneratedNFT).

Definition has_selection (st : AppState) : bool :=
  match currentNFT st with Some _ => true | None => false end.
Definition in_forge (st : AppState) : bool :=
  match viewMode st with forge => true | marketplace => false end.
Definition editing_panel (st : AppState) : bool :=
  in_forge st && has_selection st && isEditing st.

(** Which controls the rendered page offers in a state. *)
Definition enabled (ev : Event) (st : AppState) : bool :=
  match ev with
  | ClickView _ => true
  | TypePrompt _ | ClickAspectRatio _ => in_forge st
  | ClickGenerate _ _ _ => in_forge st && negb (isGenerating st)
  | ClickTile item | ClickDelete item =>
      in_forge st && bool_decide (item ∈ history st)
  | ClickEdit => in_forge st && has_selection st && negb (isEditing st)
  | MoveSlider _ value => editing_panel st && (0 <=? value) && (value <=? 200)
  | ClickRotate | ClickReset | ClickCancel | ClickSave _ => editing_panel st
  | ClickShare _ _ nft =>
      negb (in_forge st) && bool_decide (nft ∈ history st)
  end.

Definition handle (ev : Event) (st : AppState) : AppState :=
  match ev with
  | ClickView v => setViewMode v st
  | TypePrompt p => setPrompt p st
  | ClickAspectRatio ar => setAspectRatio ar st
  | ClickGenerate w uuid now => (handleGenerate w uuid now st).2
  | ClickTile item => select item st
  | ClickDelete item => deleteFromHistory (NFT.id item) st
  | ClickEdit => enterEdit st
  | MoveSlider prop value => onSlider prop value st
  | ClickRotate => onRotate st
  | ClickReset => onReset st
  | ClickCancel => cancelEdit st
  | ClickSave br => (applyEdits br st).2
  | ClickShare win platform nft => (listOnPlatform win platform nft st).2
  end.

(** A disabled or absent control does nothing to the run: [None]. *)
Definition step (ev : Event) (st : AppState) : option AppState :=
  if enabled ev st then Some (handle ev st) else None.

Fixpoint run (evs : list Event) (st : AppState) : option AppState :=
  match evs with
  | [] => Some st
  | ev :: rest =>
      match step ev st with
      | Some st' => run rest st'
      | None => None
      end
  end.

Definition reachable (st : AppState) : Prop :=
  ∃ evs, run evs initialState = Some st.

(** Every listed id is the id of an asset of the history. *)
Definition listed_in_history (st : AppState) : Prop :=
  ∀ i, i ∈ listedIds st → i ∈ NFT.id <$> history st.

End App.

Import GeminiService App.

(** * Vocabulary of the properties and sample inputs *)

(** A sequence of calls of [handleGenerate], each with its world, fresh id
    and clock: every call with the state before it and the state after. *)
Fixpoint generation_steps (calls : list (World * js_string * Z)) (st : AppState)
  : list ((World * js_string * Z) * AppState * AppState) :=
  match calls with
  | [] => []
  | (w, uuid, now) :: rest =>
      let st' := (handleGenerate w uuid now st).2 in
      ((w, uuid, now), st, st') :: generation_steps rest st'
  end.

(** The asset a call has to insert: none when the prompt is blank or the
    service throws, otherwise the asset built from the fresh id, the
    returned image, the prompt, the clock and the aspect ratio. *)
Definition inserted (call : World * js_string * Z) (st : AppState)
  : option GeneratedNFT :=
  let '(w, uuid, now) := call in
  if forallb is_white_space (prompt st) then None
  else match (generateNFTImage w (prompt st) (aspectRatio st)).2 with
       | Return imageUrl =>
           Some (NFT.mk uuid imageUrl (prompt st) now (aspectRatio st))
       | Throw _ => None
       end.

(** What one call does to the history. The history after has at most 12
    entries. A call with nothing to insert leaves it as it was. A call
    that inserts puts the new asset at the head, in front of the old
    entries in their order: all of them while there is room, and all but
    the last, the oldest, when the history already held 12. *)
Definition fifo_call (call : World * js_string * Z) (before after : AppState)
  : Prop :=
  (length (history after) ≤ 12)%nat
  ∧ match inserted call before with
    | None => history after = history before
    | Some newNFT =>
        history after = take 12 (newNFT :: history before)
        ∧ ((length (history before) < 12)%nat →
           history after = newNFT :: history before)
        ∧ ((length (history before) = 12)%nat →
           ∃ kept oldest,
             history before = kept ++ [oldest]
             ∧ history after = newNFT :: kept)
    end.

(** One call respects the capacity and evicts first in, first out: the
    history is left alone, or it is the new asset followed by the old
    history, cut after 12 entries, and what was cut is the end of the old
    history from its 12th entry on. *)
Definition fifo_step (before after : AppState) : Prop :=
  (length (history after) ≤ 12)%nat
  ∧ (history after = history before
     ∨ ∃ newNFT,
         (history after = take 12 (newNFT :: history before))
         ∧ (history after ++ drop 11 (history before) = newNFT :: history before)).

Definition sample_image : js_string := DATA_URL_PREFIX ++ lit "AAAA".

(** A backend that answers every request with one candidate whose second
    part carries an inline image. *)
Definition sample_world : World :=
  {| API_KEY := Some (lit "k");
     generateContent := λ _,
       Return {| candidates := Some
         [ {| content := Some {| parts := Some
              [ {| inlineData := None |};
                {| inlineData := Some {| data := lit "AAAA" |} |} ] |} |} ] |} |}.

(** A backend whose answer has a candidate with text parts only. *)
Definition text_only_response : GenerateContentResponse :=
  {| candidates := Some
       [ {| content := Some {| parts := Some [ {| inlineData := None |} ] |} |} ] |}.
Definition text_only_world : World :=
  {| API_KEY := Some (lit "k"); generateContent := λ _, Return text_only_response |}.

Definition sample_uuid (n : Z) : js_string := lit "id-" ++ lit (pretty n).

(** The asset that [sample_world] yields for the prompt [cat] at clock [n]. *)
Definition sample_nft (n : Z) : GeneratedNFT :=
  NFT.mk (sample_uuid n) sample_image (lit "cat") n AR_1_1.

(** [k] assets, newest first. *)
Definition sample_history (k : nat) : list GeneratedNFT :=
  sample_nft <$> reverse (seqZ 0 (Z.of_nat k)).

Definition cat_state : AppState := setPrompt (lit "cat") initialState.

Definition sample_window : Window :=
  {| location_href := lit "https://nft.example/"; encodeURIComponent := λ s, s |}.

Definition sample_browser : Browser :=
  {| canvasRef_current := true; getContext_2d := true;
     image_onload := λ src, Some {| img_src := src; img_width := 800; img_height := 600 |};
     toDataURL_png := λ _, DATA_URL_PREFIX ++ lit "EDIT" |}.

(** A full history, and two calls on it: one that succeeds and evicts,
    one that fails. *)
Definition full_state : AppState := setHistory (sample_history 12) cat_state.
Definition sample_calls : list (World * js_string * Z) :=
  [ (sample_world, sample_uuid 12, 12); (text_only_world, sample_uuid 13, 13) ].

(** A prompt of a space, a tab, a line feed and a no-break space. *)
Definition blank_state : AppState :=
  setPrompt [32; 9; 10; 160]%N initialState.

(** The reading of the claim on requests: exactly one request, whose text
    is the caller's prompt and whose aspect ratio is the caller's. *)
Definition sends_prompt_unmodified (w : World) (uuid : js_string) (now : Z)
    (st : AppState) : Prop :=
  ∃ req, (handleGenerate w uuid now st).1 = [req]
         ∧ contents_text req = prompt st
         ∧ imageConfig_aspectRatio req = aspectRatio st.

(** A selected asset under a quarter turn. *)
Definition turned_state : AppState :=
  setEditState (mkEdit 100 100 0 0 90)
    (setIsEditing true (setCurrentNFT (Some (sample_nft 0))
       (setHistory [sample_nft 0] cat_state))).

(** Generate an asset, open the edit panel, raise the brightness, cancel. *)
Definition cancel_trace : list Event :=
  [ TypePrompt (lit "cat");
    ClickGenerate sample_world (sample_uuid 0) 0;
    ClickEdit;
    MoveSlider p_brightness 150;
    ClickCancel ].

(** A store whose history record holds 13 assets, and the reading of it. *)
Definition crowded_storage : LocalStorage :=
  {| nft_history := Some (lit "[13 assets]"); nft_listed := None |}.
Definition read_crowded (s : js_string) : option (list GeneratedNFT) :=
  if decide (s = lit "[13 assets]") then Some (sample_history 13) else None.

(** Generate an asset, list it, then generate twelve more. *)
Definition eviction_trace : list Event :=
  [ TypePrompt (lit "cat");
    ClickGenerate sample_world (sample_uuid 0) 0;
    ClickView marketplace;
    ClickShare sample_window platform_x (sample_nft 0);
    ClickView forge ]
  ++ ((λ n, ClickGenerate sample_world (sample_uuid n) n) <$> seqZ 1 12).

(** In the marketplace with one asset, not listed, and the same with the
    asset listed. *)
Definition market_state : AppState :=
  setViewMode marketplace (setHistory [sample_nft 0] cat_state).
Definition listed_state : AppState :=
  setListedIds {[ sample_uuid 0 ]} market_state.

(** Two assets, the newer one selected and being edited. *)
Definition two_assets_state : AppState :=
  setIsEditing true (setCurrentNFT (Some (sample_nft 1))
    (setHistory [sample_nft 1; sample_nft 0] cat_state)).

(** The state that [cancel_trace] leads to. *)
Definition after_cancel : AppState :=
  default initialState (run cancel_trace initialState).

(** The selected asset, if any, is one of the history. *)
Definition selection_in_history (st : AppState) : Prop :=
  ∀ cur, currentNFT st = Some cur → cur ∈ history st.

(** The values the controls of the edit panel can produce. *)
Definition edit_parameters_in_range (es : EditState) : Prop :=
  0 ≤ brightness es ≤ 200
  ∧ 0 ≤ contrast es ≤ 200
  ∧ 0 ≤ grayscale es ≤ 200
  ∧ sepia es = 0
  ∧ (rotation es = 0 ∨ rotation es = 90 ∨ rotation es = 180 ∨ rotation es = 270).

(** The events whose handlers assign the edit parameters. *)
Definition changes_edit_parameters (ev : Event) : bool :=
  match ev with
  | MoveSlider _ _ | ClickRotate | ClickReset | ClickSave _ => true
  | _ => false
  end.

(** A storage slot that gives nothing to load: the key is absent, holds
    the empty string, or holds text that [parse] rejects. *)
Definition unreadable {A} (parse : js_string → option A)
    (slot : option js_string) : Prop :=
  slot = None ∨ slot = Some [] ∨ ∃ s, slot = Some s ∧ parse s = None.

(** Worlds without a key, with a backend that throws, and with a backend
    whose image is in the second candidate only. *)
Definition keyless_world : World :=
  {| API_KEY := Some []; generateContent := generateContent sample_world |}.
Definition failing_world : World :=
  {| API_KEY := Some (lit "k"); generateContent := λ _, Throw (Error (lit "503")) |}.
Definition second_candidate_response : GenerateContentResponse :=
  {| candidates := Some
       [ {| content := Some {| parts := Some [ {| inlineData := None |} ] |} |};
         {| content := Some {| parts := Some
              [ {| inlineData := Some {| data := lit "AAAA" |} |} ] |} |} ] |}.
Definition second_candidate_world : World :=
  {| API_KEY := Some (lit "k");
     generateContent := λ _, Return second_candidate_response |}.

(** The controls that the page renders only for a selection. *)
Definition acts_on_selection (ev : Event) : bool :=
  match ev with
  | ClickEdit | MoveSlider _ _ | ClickRotate | ClickReset | ClickCancel
  | ClickSave _ => true
  | _ => false
  end.

(** A history of 13 assets, as a load can leave it. *)
Definition crowded_state : AppState := setHistory (sample_history 13) cat_state.

(** An asset whose prompt is one unpaired lead surrogate. *)
Definition lone_surrogate_nft : GeneratedNFT :=
  NFT.mk (sample_uuid 0) sample_image [55296%N] 0 AR_1_1.

(** A file name cut at its whitespace: a first word, then runs of
    whitespace each followed by a word. The words hold no whitespace, the
    runs are not empty and hold nothing else, and only the first and the
    last word may be empty, so that each run is maximal. *)
Definition no_white_space (s : js_string) : bool :=
  forallb (λ c, negb (is_white_space c)) s.

Fixpoint well_split (pieces : list (js_string * js_string)) : Prop :=
  match pieces with
  | [] => True
  | (run, word) :: rest =>
      run ≠ [] ∧ forallb is_white_space run = true
      ∧ no_white_space word = true
      ∧ (rest ≠ [] → word ≠ [])
      ∧ well_split rest
  end.

(** The name with its runs, and the name with one underscore for each. *)
Definition with_runs (first : js_string) (pieces : list (js_string * js_string))
  : js_string :=
  first ++ concat ((λ rw, rw.1 ++ rw.2) <$> pieces).
Definition with_underscores (first : js_string)
    (pieces : list (js_string * js_string)) : js_string :=
  first ++ concat ((λ rw, UNDERSCORE :: rw.2) <$> pieces).

(** * Properties *)

(** ** Strings and slices *)

Section Strings.
Context {A : Type} (p : A → bool).

Lemma dropWhile_nil_iff (l : list A) :
  dropWhile p l = [] ↔ forallb p l = true.
Proof.
  induction l as [|a l IH]; simpl; [done|].
  destruct (p a) eqn:Hp; simpl; [exact IH|].
  split; intros H; discriminate H.
Qed.

Lemma dropWhile_head (l : list A) (a : A) (l' : list A) :
  dropWhile p l = a :: l' → p a = false.
Proof.
  induction l as [|b l IH]; simpl; [done|].
  destruct (p b) eqn:Hp; [exact IH|].
  intros [= -> _]. exact Hp.
Qed.

Lemma forallb_reverse (l : list A) :
  forallb p (reverse l) = forallb p l.
Proof.
  induction l as [|a l IH]; [done|].
  rewrite reverse_cons, forallb_app, IH. simpl.
  rewrite andb_true_r. apply andb_comm.
Qed.
End Strings.

Lemma trim_empty_iff (s : js_string) :
  trim s = [] ↔ forallb is_white_space s = true.
Proof.
  unfold trim, trimEnd, trimStart. split.
  - intros H. apply (f_equal reverse) in H.
    rewrite reverse_involutive in H. change (reverse []) with (@nil N) in H.
    apply dropWhile_nil_iff in H. rewrite forallb_reverse in H.
    destruct (dropWhile is_white_space s) as [|c rest] eqn:Hd.
    + by apply dropWhile_nil_iff.
    + apply dropWhile_head in Hd. simpl in H. rewrite Hd in H. discriminate H.
  - intros H. apply dropWhile_nil_iff in H. by rewrite H.
Qed.

Lemma falsy_true_iff (s : js_string) : falsy s = true ↔ s = [].
Proof. destruct s; simpl; split; intros H; done. Qed.

Lemma falsy_false_iff (s : js_string) : falsy s = false ↔ s ≠ [].
Proof. destruct s; simpl; split; intros H; done. Qed.

Lemma slice_from_0 {A} (l : list A) (n : Z) :
  0 ≤ n → slice l 0 n = take (Z.to_nat n) l.
Proof.
  intros Hn. unfold slice, relative_index.
  replace (0 <? 0) with false by done.
  replace (n <? 0) with false by (symmetry; apply Z.ltb_ge; exact Hn).
  rewrite (Z.min_l 0) by lia. change (Z.to_nat 0) with 0%nat.
  rewrite drop_0, Z.sub_0_r.
  destruct (Z.le_gt_cases n (Z.of_nat (length l))) as [Hle|Hgt].
  - by rewrite Z.min_l.
  - rewrite Z.min_r by lia. rewrite Nat2Z.id.
    rewrite (take_ge l (length l)) by lia.
    rewrite (take_ge l (Z.to_nat n)) by lia. done.
Qed.

(** ** The bounded history *)

Lemma create_take (newNFT : GeneratedNFT) (prev : list GeneratedNFT) :
  create newNFT prev = take 12 (newNFT :: prev).
Proof. unfold create, CAPACITY. by rewrite slice_from_0. Qed.

Lemma create_length (newNFT : GeneratedNFT) (prev : list GeneratedNFT) :
  (length (create newNFT prev) ≤ 12)%nat.
Proof. rewrite create_take, length_take. lia. Qed.

Lemma create_evicts_tail (newNFT : GeneratedNFT) (prev : list GeneratedNFT) :
  create newNFT prev ++ drop 11 prev = newNFT :: prev.
Proof. rewrite create_take. apply (take_drop 12 (newNFT :: prev)). Qed.

(** ** The generation service *)

Lemma generateNFTImage_unfold (w : World) (p : js_string) (ar : AspectRatio) :
  generateNFTImage w p ar =
    if apiKey_missing w then ([], Throw API_KEY_MISSING)
    else match generateContent w (request_for p ar) with
         | Throw e => ([request_for p ar], Throw e)
         | Return response =>
             if falsy (extract_imageUrl response)
             then ([request_for p ar], Throw EXTRACTION_FAILED)
             else ([request_for p ar], Return (extract_imageUrl response))
         end.
Proof.
  unfold generateNFTImage, await_generateContent, try_catch, bind, throw, ret.
  destruct (apiKey_missing w); [done|].
  destruct (generateContent w (request_for p ar)) as [response|e]; simpl.
  - by destruct (falsy (extract_imageUrl response)).
  - done.
Qed.

Lemma scan_parts_no_inline (imageUrl : js_string) (ps : list Part) :
  existsb part_has_inline ps = false → scan_parts imageUrl ps = imageUrl.
Proof.
  induction ps as [|part rest IH]; simpl; [done|].
  unfold part_has_inline at 1. destruct (inlineData part); simpl; [done|].
  exact IH.
Qed.

Lemma scan_parts_inline (imageUrl : js_string) (ps : list Part) :
  existsb part_has_inline ps = true → scan_parts imageUrl ps ≠ [].
Proof.
  induction ps as [|part rest IH]; simpl; [done|].
  unfold part_has_inline at 1. destruct (inlineData part); simpl; [done|].
  exact IH.
Qed.

Lemma extract_no_payload (response : GenerateContentResponse) :
  has_inline_payload response = false → extract_imageUrl response = [].
Proof.
  unfold has_inline_payload, extract_imageUrl, first_candidate_parts.
  destruct (candidates response) as [[|c cs]|]; simpl; try done.
  unfold candidate_has_inline at 1.
  destruct (content c) as [ct|]; [|done].
  destruct (parts ct) as [ps|]; [|done].
  intros [H _]%orb_false_elim. by apply scan_parts_no_inline.
Qed.

(** The service returns a string only when it is not empty. *)
Lemma generateNFTImage_return (w : World) (p : js_string) (ar : AspectRatio)
    (imageUrl : js_string) :
  (generateNFTImage w p ar).2 = Return imageUrl → imageUrl ≠ [].
Proof.
  rewrite generateNFTImage_unfold.
  destruct (apiKey_missing w); [done|].
  destruct (generateContent w (request_for p ar)) as [response|e]; [|done].
  destruct (falsy (extract_imageUrl response)) eqn:Hf; [done|].
  simpl. intros [= <-]. by apply falsy_false_iff.
Qed.

(** ** handleGenerate, by cases *)

Lemma handleGenerate_blank (w : World) (uuid : js_string) (now : Z)
    (st : AppState) :
  forallb is_white_space (prompt st) = true →
  handleGenerate w uuid now st = ([], setError (Some ENTER_PROMPT) st).
Proof.
  intros H%trim_empty_iff. unfold handleGenerate, handleGenerate_start.
  by rewrite H.
Qed.

Lemma handleGenerate_called (w : World) (uuid : js_string) (now : Z)
    (st : AppState) :
  forallb is_white_space (prompt st) = false →
  handleGenerate w uuid now st =
    ((generateNFTImage w (prompt st) (aspectRatio st)).1,
     handleGenerate_settle uuid now (prompt st) (aspectRatio st)
       (generateNFTImage w (prompt st) (aspectRatio st)).2
       (setIsEditing false (setError None (setIsGenerating true st)))).
Proof.
  intros H. unfold handleGenerate, handleGenerate_start.
  destruct (falsy (trim (prompt st))) eqn:Hf.
  - apply falsy_true_iff, trim_empty_iff in Hf. congruence.
  - by destruct (generateNFTImage w (prompt st) (aspectRatio st)).
Qed.

(** A call either fails, leaving history and selection alone and setting
    the error message, or prepends a new asset with a non-empty image. *)
Lemma handleGenerate_outcome (w : World) (uuid : js_string) (now : Z)
    (st : AppState) :
  let st' := (handleGenerate w uuid now st).2 in
  (∃ msg, error st' = Some msg ∧ history st' = history st
          ∧ currentNFT st' = currentNFT st)
  ∨ (∃ imageUrl,
       let newNFT := NFT.mk uuid imageUrl (prompt st) now (aspectRatio st) in
       imageUrl ≠ [] ∧ error st' = None ∧ currentNFT st' = Some newNFT
       ∧ history st' = create newNFT (history st)).
Proof.
  destruct (forallb is_white_space (prompt st)) eqn:Hws.
  - rewrite handleGenerate_blank by done. left. by eexists.
  - rewrite handleGenerate_called by done. simpl.
    destruct (generateNFTImage w (prompt st) (aspectRatio st)) as [log r] eqn:Hg.
    destruct r as [imageUrl|e]; simpl.
    + right. exists imageUrl. split; [|done].
      apply (generateNFTImage_return w (prompt st) (aspectRatio st)).
      by rewrite Hg.
    + left. by eexists.
Qed.

(** The continuation after the [await] acts on the history of the moment
    it runs, whatever happened since the click. *)
Lemma handleGenerate_settle_history (uuid : js_string) (now : Z)
    (p : js_string) (ar : AspectRatio) (r : outcome js_string) (st : AppState) :
  history (handleGenerate_settle uuid now p ar r st)
  = match r with
    | Return imageUrl => create (NFT.mk uuid imageUrl p now ar) (history st)
    | Throw _ => history st
    end
  ∧ (length (history st) ≤ 12 →
     length (history (handleGenerate_settle uuid now p ar r st)) ≤ 12)%nat.
Proof.
  destruct r as [imageUrl|e]; simpl; (split; [done|]); intros Hlen.
  - apply create_length.
  - exact Hlen.
Qed.

Lemma listedIds_handleGenerate (w : World) (uuid : js_string) (now : Z)
    (st : AppState) :
  listedIds (handleGenerate w uuid now st).2 = listedIds st.
Proof.
  unfold handleGenerate, handleGenerate_start.
  destruct (falsy (trim (prompt st))); [done|].
  destruct (generateNFTImage w (prompt st) (aspectRatio st)) as [log [u|e]]; done.
Qed.

(** ** Sequences of generations *)

Lemma handleGenerate_fifo_step (w : World) (uuid : js_string) (now : Z)
    (st : AppState) :
  (length (history st) ≤ 12)%nat →
  fifo_step st (handleGenerate w uuid now st).2.
Proof.
  intros Hlen. unfold fifo_step.
  destruct (handleGenerate_outcome w uuid now st)
    as [(msg & He & Hh & Hc)|(imageUrl & Hu & He & Hc & Hh)]; rewrite Hh.
  - split; [done | by left].
  - split; [apply create_length|]. right. eexists. split.
    + apply create_take.
    + apply create_evicts_tail.
Qed.

Lemma handleGenerate_fifo_call (w : World) (uuid : js_string) (now : Z)
    (st : AppState) :
  (length (history st) ≤ 12)%nat →
  fifo_call (w, uuid, now) st (handleGenerate w uuid now st).2.
Proof.
  intros Hlen. split; [by apply handleGenerate_fifo_step|].
  unfold inserted.
  destruct (forallb is_white_space (prompt st)) eqn:Hws.
  { by rewrite handleGenerate_blank. }
  rewrite handleGenerate_called by done. simpl.
  destruct ((generateNFTImage w (prompt st) (aspectRatio st)).2)
    as [imageUrl|e]; [|done].
  unfold handleGenerate_settle, setHistory_with. simpl.
  rewrite create_take.
  set (newNFT := NFT.mk uuid imageUrl (prompt st) now (aspectRatio st)).
  split; [done|]. split.
  - intros Hroom. apply take_ge. simpl. lia.
  - intros Hfull. exists (take 11 (history st)).
    destruct (drop 11 (history st)) as [|oldest [|x rest]] eqn:Hdrop.
    + apply (f_equal length) in Hdrop. rewrite length_drop in Hdrop.
      simpl in Hdrop. lia.
    + exists oldest. split; [|done].
      by rewrite <- Hdrop, take_drop.
    + apply (f_equal length) in Hdrop. rewrite length_drop in Hdrop.
      simpl in Hdrop. lia.
Qed.

(** C1. For every sequence of generation calls that starts from a history
    of at most 12 entries, the history has at most 12 entries after every
    call; a call that fails leaves the history as it was; a call that
    succeeds puts the new asset at the head and keeps the old entries
    behind it in their order, evicting exactly the last, the oldest, when
    the history was full. *)
Theorem history_capacity_fifo (calls : list (World * js_string * Z))
    (st : AppState) :
  (length (history st) ≤ 12)%nat →
  Forall (λ step, fifo_call step.1.1 step.1.2 step.2) (generation_steps calls st).
Proof.
  revert st. induction calls as [|[[w uuid] now] rest IH]; intros st Hlen.
  - constructor.
  - simpl. pose proof (handleGenerate_fifo_call w uuid now st Hlen) as Hstep.
    constructor; [exact Hstep|]. apply IH. apply Hstep.
Qed.

Lemma history_capacity_fifo_witness :
  (length (history full_state) ≤ 12)%nat
  ∧ Forall (λ step, fifo_call step.1.1 step.1.2 step.2)
      (generation_steps sample_calls full_state).
Proof.
  assert (H : (length (history full_state) ≤ 12)%nat) by (vm_compute; lia).
  split; [exact H|]. exact (history_capacity_fifo sample_calls full_state H).
Defined.

(** On a full history the thirteenth asset enters at the head and the
    oldest one leaves. *)
Lemma thirteenth_generation :
  history (handleGenerate sample_world (sample_uuid 12) 12 full_state).2
  = sample_nft 12 :: take 11 (sample_history 12)
  ∧ drop 11 (sample_history 12) = [sample_nft 0].
Proof. split; vm_compute; reflexivity. Qed.

(** ** Deletion *)

Lemma filter_id_absent (id : js_string) (l : list GeneratedNFT) :
  id ∉ NFT.id <$> l → filter (λ item, NFT.id item ≠ id) l = l.
Proof.
  induction l as [|a l IH]; [done|].
  rewrite fmap_cons, not_elem_of_cons. intros [Hne Hl].
  rewrite filter_cons_True by done. by rewrite IH.
Qed.

Lemma filter_id_gone (id : js_string) (l : list GeneratedNFT) :
  id ∉ NFT.id <$> filter (λ item, NFT.id item ≠ id) l.
Proof.
  intros (item & Hid & Hin)%list_elem_of_fmap.
  apply list_elem_of_filter in Hin as [Hne _]. by apply Hne.
Qed.

Lemma deleteFromHistory_history (id : js_string) (st : AppState) :
  history (deleteFromHistory id st)
  = filter (λ item, NFT.id item ≠ id) (history st).
Proof.
  unfold deleteFromHistory. by destruct (decide (selection st = Some id)).
Qed.

Lemma deleteFromHistory_listedIds (id : js_string) (st : AppState) :
  listedIds (deleteFromHistory id st) = listedIds st ∖ {[ id ]}.
Proof.
  unfold deleteFromHistory. by destruct (decide (selection st = Some id)).
Qed.

(** C3. [delete(id)] is one step that removes from the history the assets
    with that id, changing nothing when there is none, removes the id
    from the listed set, and empties the selection when it was that id,
    leaving it as it was otherwise. Nothing else changes. *)
Theorem delete_cascade (id : js_string) (st : AppState) :
  let st' := deleteFromHistory id st in
  history st' = filter (λ item, NFT.id item ≠ id) (history st)
  ∧ (id ∉ (NFT.id <$> history st'))
  ∧ (id ∉ (NFT.id <$> history st) → history st' = history st)
  ∧ listedIds st' = listedIds st ∖ {[ id ]}
  ∧ (id ∉ listedIds st')
  ∧ (selection st = Some id → currentNFT st' = None)
  ∧ (selection st ≠ Some id → currentNFT st' = currentNFT st)
  ∧ viewMode st' = viewMode st ∧ prompt st' = prompt st
  ∧ aspectRatio st' = aspectRatio st ∧ isGenerating st' = isGenerating st
  ∧ error st' = error st ∧ isEditing st' = isEditing st
  ∧ editState st' = editState st.
Proof.
  simpl. rewrite deleteFromHistory_history, deleteFromHistory_listedIds.
  split; [done|]. split; [apply filter_id_gone|].
  split; [apply filter_id_absent|]. split; [done|].
  split; [rewrite elem_of_difference, elem_of_singleton; tauto|].
  unfold deleteFromHistory.
  destruct (decide (selection st = Some id)) as [Hsel|Hsel];
    repeat split; done.
Qed.

Lemma delete_cascade_witness :
  history (deleteFromHistory (sample_uuid 0) turned_state) = []
  ∧ currentNFT (deleteFromHistory (sample_uuid 0) turned_state) = None.
Proof.
  destruct (delete_cascade (sample_uuid 0) turned_state)
    as (Hh & _ & _ & _ & _ & Hsel & _).
  split; [rewrite Hh; reflexivity | apply Hsel; reflexivity].
Defined.

(** ** Validation of the prompt *)

(** C4. With a prompt that is empty or all whitespace, [handleGenerate]
    only sets the validation message: no request reaches the backend, and
    the history, the selection and the listed set are unchanged. *)
Theorem blank_prompt_rejected (w : World) (uuid : js_string) (now : Z)
    (st : AppState) :
  forallb is_white_space (prompt st) = true →
  let r := handleGenerate w uuid now st in
  r.1 = []
  ∧ error r.2 = Some ENTER_PROMPT
  ∧ history r.2 = history st
  ∧ currentNFT r.2 = currentNFT st
  ∧ listedIds r.2 = listedIds st
  ∧ r.2 = setError (Some ENTER_PROMPT) st.
Proof.
  intros H. simpl. by rewrite handleGenerate_blank.
Qed.

Lemma blank_prompt_rejected_witness :
  (handleGenerate sample_world (sample_uuid 0) 0 blank_state).1 = []
  ∧ history (handleGenerate sample_world (sample_uuid 0) 0 blank_state).2 = [].
Proof.
  destruct (blank_prompt_rejected sample_world (sample_uuid 0) 0 blank_state)
    as (Hlog & _ & Hh & _); [reflexivity|].
  split; [exact Hlog | exact Hh].
Defined.

(** ** What the backend is sent *)

(** C5, as stated, fails: for the prompt [cat] the text that reaches the
    backend is not [cat]. *)
Lemma prompt_is_prefixed :
  prompt cat_state ≠ []
  ∧ ¬ sends_prompt_unmodified sample_world (sample_uuid 0) 0 cat_state.
Proof.
  split; [done|].
  intros (req & Hlog & Htext & _).
  rewrite handleGenerate_called in Hlog by reflexivity.
  rewrite generateNFTImage_unfold in Hlog. simpl in Hlog.
  injection Hlog as <-. vm_compute in Htext. discriminate Htext.
Qed.

(** C5, amended. For a prompt with a character that is not whitespace, and
    with an API key configured, [handleGenerate] sends the backend exactly
    one request: the fixed model, the caller's aspect ratio, and the fixed
    style prefix followed by the caller's prompt, character for character. *)
Theorem generate_request (w : World) (uuid : js_string) (now : Z)
    (st : AppState) :
  forallb is_white_space (prompt st) = false →
  apiKey_missing w = false →
  (handleGenerate w uuid now st).1 =
    [ {| model := MODEL;
         contents_text := STYLE_PREFIX ++ prompt st;
         imageConfig_aspectRatio := aspectRatio st |} ]
  ∧ drop (length STYLE_PREFIX) (STYLE_PREFIX ++ prompt st) = prompt st.
Proof.
  intros Hws Hkey. split; [|apply drop_app_length].
  rewrite handleGenerate_called by done. simpl.
  rewrite generateNFTImage_unfold, Hkey.
  fold (request_for (prompt st) (aspectRatio st)).
  destruct (generateContent w (request_for (prompt st) (aspectRatio st)))
    as [response|e]; [|done].
  by destruct (falsy (extract_imageUrl response)).
Qed.

Lemma generate_request_witness :
  (handleGenerate sample_world (sample_uuid 0) 0 cat_state).1 =
    [ {| model := MODEL;
         contents_text := STYLE_PREFIX ++ lit "cat";
         imageConfig_aspectRatio := AR_1_1 |} ]
  ∧ drop (length STYLE_PREFIX) (STYLE_PREFIX ++ lit "cat") = lit "cat".
Proof.
  apply (generate_request sample_world (sample_uuid 0) 0 cat_state);
    reflexivity.
Defined.

(** ** What a generation yields *)

(** C6. [handleGenerate] either reports an error and leaves history and
    selection alone, or yields an asset whose image data is not empty; the
    service never returns the empty string; and when the response of the
    backend carries no inline image the service throws the extraction
    error, which is what the caller then reports. *)
Theorem generate_image_nonempty (w : World) (uuid : js_string) (now : Z)
    (st : AppState) :
  let st' := (handleGenerate w uuid now st).2 in
  let served := generateNFTImage w (prompt st) (aspectRatio st) in
  ((∃ msg, error st' = Some msg ∧ history st' = history st
           ∧ currentNFT st' = currentNFT st)
   ∨ (∃ newNFT, NFT.url newNFT ≠ [] ∧ currentNFT st' = Some newNFT
                ∧ history st' = create newNFT (history st)))
  ∧ (∀ imageUrl, served.2 = Return imageUrl → imageUrl ≠ [])
  ∧ (∀ response,
       apiKey_missing w = false →
       generateContent w (request_for (prompt st) (aspectRatio st)) = Return response →
       has_inline_payload response = false →
       served.2 = Throw EXTRACTION_FAILED
       ∧ (forallb is_white_space (prompt st) = false →
          error st' = Some (message EXTRACTION_FAILED)
          ∧ history st' = history st ∧ currentNFT st' = currentNFT st)).
Proof.
  simpl. split; [|split].
  - destruct (handleGenerate_outcome w uuid now st)
      as [(msg & He & Hh & Hc)|(imageUrl & Hu & He & Hc & Hh)].
    + left. by exists msg.
    + right. eexists. split; [|split; [exact Hc|exact Hh]]. exact Hu.
  - intros imageUrl. apply generateNFTImage_return.
  - intros response Hkey Hresp Hnone.
    assert (Hthrow : (generateNFTImage w (prompt st) (aspectRatio st)).2
                     = Throw EXTRACTION_FAILED).
    { rewrite generateNFTImage_unfold, Hkey, Hresp.
      by rewrite (extract_no_payload response Hnone). }
    split; [exact Hthrow|]. intros Hws.
    rewrite handleGenerate_called by done. simpl. by rewrite Hthrow.
Qed.

Lemma generate_image_nonempty_witness :
  (generateNFTImage text_only_world (lit "cat") AR_1_1).2 = Throw EXTRACTION_FAILED
  ∧ error (handleGenerate text_only_world (sample_uuid 0) 0 cat_state).2
    = Some (message EXTRACTION_FAILED).
Proof.
  destruct (generate_image_nonempty text_only_world (sample_uuid 0) 0 cat_state)
    as (_ & _ & H).
  destruct (H text_only_response) as [Hthrow Herr]; [reflexivity..|].
  split; [exact Hthrow|]. apply Herr. reflexivity.
Defined.

(** ** The edit pipeline *)

Lemma isHorizontalRotation_mod (es : EditState) :
  isHorizontalRotation es = true ↔ rotation es `mod` 180 ≠ 0.
Proof.
  unfold isHorizontalRotation.
  rewrite negb_true_iff, Z.eqb_neq.
  rewrite Z.rem_divide, Z.mod_divide by lia. done.
Qed.

Lemma quarter_turns (r : Z) :
  (90 | r) → (r `mod` 180 ≠ 0 ↔ r `mod` 360 = 90 ∨ r `mod` 360 = 270).
Proof.
  intros [k ->]. rewrite (Z.mul_comm k 90).
  change 180 with (90 * 2). change 360 with (90 * 4).
  rewrite !Z.mul_mod_distr_l by lia.
  assert (Hk : k `mod` 2 = (k `mod` 4) `mod` 2).
  { rewrite (Z.div_mod k 4) at 1 by lia.
    replace (4 * (k `div` 4) + k `mod` 4)
      with (k `mod` 4 + (2 * (k `div` 4)) * 2) by lia.
    apply Z.mod_add. lia. }
  rewrite Hk.
  pose proof (Z.mod_pos_bound k 4 ltac:(lia)) as Hb.
  assert (Hm : k `mod` 4 = 0 ∨ k `mod` 4 = 1 ∨ k `mod` 4 = 2 ∨ k `mod` 4 = 3)
    by lia.
  destruct Hm as [-> | [-> | [-> | ->]]];
    [ change (0 `mod` 2) with 0 | change (1 `mod` 2) with 1
    | change (2 `mod` 2) with 0 | change (3 `mod` 2) with 1 ]; lia.
Qed.

Lemma applyEdits_paints (br : Browser) (st : AppState) (cur : GeneratedNFT)
    (img : HTMLImage) :
  currentNFT st = Some cur →
  canvasRef_current br = true →
  getContext_2d br = true →
  image_onload br (NFT.url cur) = Some img →
  (applyEdits br st).1 = Some (paint (editState st) img).
Proof.
  intros Hcur Href Hctx Himg. unfold applyEdits.
  by rewrite Hcur, Href, Hctx, Himg.
Qed.

(** C7. When [applyEdits] paints a W×H image, the canvas is H×W if the
    rotation is not 0 modulo 180 and W×H if it is; for a rotation that is
    a multiple of 90 the first case is that of 90 and 270 modulo 360. *)
Theorem rotation_dimension_law (br : Browser) (st : AppState)
    (cur : GeneratedNFT) (img : HTMLImage) :
  currentNFT st = Some cur →
  canvasRef_current br = true →
  getContext_2d br = true →
  image_onload br (NFT.url cur) = Some img →
  let r := rotation (editState st) in
  ∃ canvas,
    (applyEdits br st).1 = Some canvas
    ∧ (r `mod` 180 ≠ 0 →
       width canvas = img_height img ∧ height canvas = img_width img)
    ∧ (r `mod` 180 = 0 →
       width canvas = img_width img ∧ height canvas = img_height img)
    ∧ ((90 | r) → (r `mod` 180 ≠ 0 ↔ r `mod` 360 = 90 ∨ r `mod` 360 = 270)).
Proof.
  intros Hcur Href Hctx Himg r.
  exists (paint (editState st) img).
  split; [by apply (applyEdits_paints br st cur)|].
  unfold paint; simpl. fold r.
  destruct (isHorizontalRotation (editState st)) eqn:Hrot.
  - apply isHorizontalRotation_mod in Hrot. fold r in Hrot.
    split; [done|]. split; [done|]. apply quarter_turns.
  - assert (Hz : r `mod` 180 = 0).
    { destruct (decide (r `mod` 180 = 0)) as [|Hne]; [done|].
      apply isHorizontalRotation_mod in Hne. congruence. }
    split; [done|]. split; [done|]. apply quarter_turns.
Qed.

Lemma rotation_dimension_law_witness :
  ∃ canvas,
    (applyEdits sample_browser turned_state).1 = Some canvas
    ∧ width canvas = 600 ∧ height canvas = 800.
Proof.
  destruct (rotation_dimension_law sample_browser turned_state (sample_nft 0)
              {| img_src := sample_image; img_width := 800; img_height := 600 |})
    as (canvas & Hc & Hswap & _); [reflexivity..|].
  exists canvas. split; [exact Hc|]. apply Hswap. vm_compute. discriminate.
Defined.

(** With the default parameters the canvas has the size of the image,
    the filter string names the neutral percentages, and the image is
    drawn unturned with its centre on the centre of the canvas. *)
Lemma paint_default (img : HTMLImage) :
  paint INITIAL_EDIT_STATE img =
    {| width := img_width img; height := img_height img;
       ops := [ clearRect 0 0 (img_width img) (img_height img);
                set_filter (lit "brightness(100%) contrast(100%) grayscale(0%) sepia(0%)");
                translate (img_width img) (img_height img);
                rotate 0;
                drawImage img (- img_width img) (- img_height img) ] |}.
Proof. reflexivity. Qed.

(** A save that paints leaves the edit panel and resets the parameters. *)
Lemma applyEdits_resets (br : Browser) (st : AppState) (canvas : Canvas) :
  (applyEdits br st).1 = Some canvas →
  isEditing (applyEdits br st).2 = false
  ∧ editState (applyEdits br st).2 = INITIAL_EDIT_STATE.
Proof.
  unfold applyEdits. destruct (currentNFT st) as [cur|]; [|done].
  destruct (canvasRef_current br); [|done].
  destruct (getContext_2d br); [|done].
  by destruct (image_onload br (NFT.url cur)).
Qed.

(** ** Leaving the edit panel *)

Lemma cancelEdit_frame (st : AppState) :
  isEditing (cancelEdit st) = false
  ∧ editState (cancelEdit st) = editState st
  ∧ currentNFT (cancelEdit st) = currentNFT st
  ∧ history (cancelEdit st) = history st
  ∧ listedIds (cancelEdit st) = listedIds st.
Proof. done. Qed.

(** C9, on the code. After Cancel the session is idle and the asset and
    the history are as before, but the edit parameters are the ones the
    user had set, not the defaults. *)
Lemma cancel_keeps_edit_parameters :
  ∃ st, run cancel_trace initialState = Some st
        ∧ isEditing st = false
        ∧ currentNFT st = Some (sample_nft 0)
        ∧ history st = [sample_nft 0]
        ∧ editState st = mkEdit 150 100 0 0 0
        ∧ editState st ≠ INITIAL_EDIT_STATE.
Proof.
  eexists. split; [vm_compute; reflexivity|].
  repeat split; try reflexivity. discriminate.
Qed.

(** ** Loading *)

(** C10. When the stored history parses, the history after [load] is the
    parsed sequence, whatever its length, and the selection is its first
    entry if it has one; a stored sequence of more than 12 entries gives a
    history of more than 12 entries. *)
Theorem load_unbounded
    (JSON_parse_history : js_string → option (list GeneratedNFT))
    (JSON_parse_listed : js_string → option (list js_string))
    (ls : LocalStorage) (savedHistory : js_string)
    (parsed : list GeneratedNFT) (st : AppState) :
  nft_history ls = Some savedHistory →
  savedHistory ≠ [] →
  JSON_parse_history savedHistory = Some parsed →
  let st' := load JSON_parse_history JSON_parse_listed ls st in
  history st' = parsed
  ∧ currentNFT st' = match parsed with
                     | first :: _ => Some first
                     | [] => currentNFT st
                     end
  ∧ ((12 < length parsed)%nat → (12 < length (history st'))%nat).
Proof.
  intros Hsaved Hne%falsy_false_iff Hparse. simpl.
  assert (Hh : load_history JSON_parse_history ls st
               = match parsed with
                 | first :: _ => setCurrentNFT (Some first) (setHistory parsed st)
                 | [] => setHistory parsed st
                 end).
  { unfold load_history. by rewrite Hsaved, Hne, Hparse. }
  assert (Hl : ∀ s, history (load_listed JSON_parse_listed ls s) = history s
                    ∧ currentNFT (load_listed JSON_parse_listed ls s) = currentNFT s).
  { intros s. unfold load_listed.
    destruct (nft_listed ls) as [savedListed|]; [|done].
    destruct (falsy savedListed); [done|].
    by destruct (JSON_parse_listed savedListed). }
  unfold load. destruct (Hl (load_history JSON_parse_history ls st)) as [-> ->].
  rewrite Hh. destruct parsed as [|first rest]; simpl; (split; [done|]); by split.
Qed.

Lemma load_unbounded_witness :
  (12 < length (history (load read_crowded (λ _, None) crowded_storage
                           initialState)))%nat.
Proof.
  apply (load_unbounded read_crowded (λ _, None) crowded_storage
           (lit "[13 assets]") (sample_history 13) initialState);
    [reflexivity | discriminate | reflexivity | vm_compute; lia].
Defined.

(** ** Listing and eviction *)

Lemma eviction_trace_runs :
  match run eviction_trace initialState with
  | Some st =>
      bool_decide (sample_uuid 0 ∈ listedIds st)
      && negb (bool_decide (sample_uuid 0 ∈ (NFT.id <$> history st)))
      && bool_decide (length (history st) = 12%nat)
  | None => false
  end = true.
Proof. vm_compute. reflexivity. Qed.

(** C2, on the code. A state is reachable in which a listed id is the id
    of no asset of the history: the asset was listed, then evicted by the
    twelfth generation after it. *)
Lemma listing_outlives_eviction :
  ∃ st, reachable st
        ∧ sample_uuid 0 ∈ listedIds st
        ∧ (sample_uuid 0 ∉ (NFT.id <$> history st))
        ∧ ¬ listed_in_history st.
Proof.
  pose proof eviction_trace_runs as H.
  destruct (run eviction_trace initialState) as [st|] eqn:Hrun; [|discriminate H].
  apply andb_true_iff in H as [[Hin Hout]%andb_true_iff _].
  apply bool_decide_eq_true in Hin.
  apply negb_true_iff, bool_decide_eq_false in Hout.
  exists st. split; [by exists eviction_trace|].
  split; [exact Hin|]. split; [exact Hout|].
  intros Hinv. apply Hout, Hinv, Hin.
Qed.

(** ** Shares that throw *)

(** Building the address fails exactly for a [github] share of an asset
    whose prompt holds an unpaired surrogate. *)
Lemma shareUrl_None (win : Window) (platform : Platform) (nft : GeneratedNFT) :
  shareUrl win platform nft = None
  ↔ platform = platform_github ∧ well_formed_utf16 (NFT.prompt nft) = false.
Proof.
  unfold shareUrl. destruct platform.
  - split; [done | by intros [? _]].
  - split; [done | by intros [? _]].
  - destruct (well_formed_utf16 (NFT.prompt nft)).
    + split; [done | by intros [_ ?]].
    + done.
Qed.

Lemma listOnPlatform_cases (win : Window) (platform : Platform)
    (nft : GeneratedNFT) (st : AppState) :
  (shareUrl win platform nft = None
   ∧ listOnPlatform win platform nft st = (None, st))
  ∨ (∃ address,
       shareUrl win platform nft = Some address
       ∧ listOnPlatform win platform nft st
         = (Some address, setListedIds_with (markListed (NFT.id nft)) st)).
Proof.
  unfold listOnPlatform.
  destruct (shareUrl win platform nft) as [address|]; [right|left]; eauto.
Qed.

Lemma listOnPlatform_frame (win : Window) (platform : Platform)
    (nft : GeneratedNFT) (st : AppState) :
  history (listOnPlatform win platform nft st).2 = history st
  ∧ currentNFT (listOnPlatform win platform nft st).2 = currentNFT st
  ∧ editState (listOnPlatform win platform nft st).2 = editState st
  ∧ isEditing (listOnPlatform win platform nft st).2 = isEditing st
  ∧ viewMode (listOnPlatform win platform nft st).2 = viewMode st.
Proof.
  unfold listOnPlatform. by destruct (shareUrl win platform nft).
Qed.

Lemma listedIds_listOnPlatform (win : Window) (platform : Platform)
    (nft : GeneratedNFT) (st : AppState) :
  listedIds (listOnPlatform win platform nft st).2
  = match shareUrl win platform nft with
    | Some _ => {[ NFT.id nft ]} ∪ listedIds st
    | None => listedIds st
    end.
Proof.
  unfold listOnPlatform. by destruct (shareUrl win platform nft).
Qed.

(** ** Invariants of the transition system *)

Lemma applyEdits_history (br : Browser) (st : AppState) :
  history (applyEdits br st).2 = history st
  ∨ ∃ cur editedUrl,
      currentNFT st = Some cur
      ∧ history (applyEdits br st).2
        = replace_by_id (NFT.id cur) (NFT.with_url editedUrl cur) (history st).
Proof.
  unfold applyEdits. destruct (currentNFT st) as [cur|]; [|by left].
  destruct (canvasRef_current br); [|by left].
  destruct (getContext_2d br); [|by left].
  destruct (image_onload br (NFT.url cur)) as [img|]; [|by left].
  right. by eexists _, _.
Qed.

Lemma listedIds_applyEdits (br : Browser) (st : AppState) :
  listedIds (applyEdits br st).2 = listedIds st.
Proof.
  unfold applyEdits. destruct (currentNFT st) as [cur|]; [|done].
  destruct (canvasRef_current br); [|done].
  destruct (getContext_2d br); [|done].
  by destruct (image_onload br (NFT.url cur)).
Qed.

(** Saving an edit keeps the ids of the history, in their order. *)
Lemma replace_by_id_ids (cur : GeneratedNFT) (u : js_string)
    (l : list GeneratedNFT) :
  NFT.id <$> replace_by_id (NFT.id cur) (NFT.with_url u cur) l = NFT.id <$> l.
Proof.
  unfold replace_by_id. rewrite <- list_fmap_compose.
  apply list_fmap_ext. intros i item _. simpl.
  by destruct (decide (NFT.id item = NFT.id cur)).
Qed.

Lemma handle_history_ids (ev : Event) (st : AppState) :
  (∀ w uuid now, ev ≠ ClickGenerate w uuid now) →
  (∀ item, ev ≠ ClickDelete item) →
  NFT.id <$> history (handle ev st) = NFT.id <$> history st.
Proof.
  intros Hgen Hdel. destruct ev; simpl; try done.
  - by destruct (Hgen w uuid now).
  - by destruct (Hdel item).
  - destruct (applyEdits_history br st) as [->|(cur & u & _ & ->)]; [done|].
    apply replace_by_id_ids.
  - f_equal. apply listOnPlatform_frame.
Qed.

(** No event makes the history longer than 12 entries. *)
Lemma handle_history_bound (ev : Event) (st : AppState) :
  (length (history st) ≤ 12)%nat → (length (history (handle ev st)) ≤ 12)%nat.
Proof.
  intros Hlen.
  destruct ev; simpl; try done.
  - by apply handleGenerate_fifo_step.
  - rewrite deleteFromHistory_history.
    etrans; [apply length_filter|exact Hlen].
  - destruct (applyEdits_history br st) as [->|(cur & u & _ & ->)]; [done|].
    unfold replace_by_id. by rewrite length_fmap.
  - by destruct (listOnPlatform_frame win platform nft st) as [-> _].
Qed.

Lemma run_history_bound (evs : list Event) (st st' : AppState) :
  run evs st = Some st' →
  (length (history st) ≤ 12)%nat → (length (history st') ≤ 12)%nat.
Proof.
  revert st. induction evs as [|ev rest IH]; intros st; simpl.
  - by intros [= ->].
  - unfold step. destruct (enabled ev st); [|done].
    intros Hrun Hlen. apply (IH _ Hrun). by apply handle_history_bound.
Qed.

(** X10. No sequence of controls of the page makes the history longer
    than 12 entries: every state reachable from the initial state has at
    most 12 assets. *)
Lemma reachable_history_bound (st : AppState) :
  reachable st → (length (history st) ≤ 12)%nat.
Proof.
  intros [evs Hrun]. apply (run_history_bound evs initialState st Hrun).
  simpl. lia.
Qed.

(** X11. Every event keeps the listed ids inside the history, except a
    generation that evicts: one run on a history that is already full. *)
Lemma handle_listed_in_history (ev : Event) (st : AppState) :
  enabled ev st = true →
  (∀ w uuid now, ev = ClickGenerate w uuid now → (length (history st) < 12)%nat) →
  listed_in_history st → listed_in_history (handle ev st).
Proof.
  intros Hen Hroom Hinv i.
  destruct ev;
    try (rewrite handle_history_ids by done; simpl; apply Hinv).
  - (* generation *)
    simpl. rewrite listedIds_handleGenerate. intros Hi%Hinv.
    destruct (handleGenerate_outcome w uuid now st)
      as [(msg & He & Hh & Hc)|(imageUrl & Hu & He & Hc & Hh)];
      rewrite Hh; [done|].
    rewrite create_take, take_ge.
    + rewrite fmap_cons. by apply list_elem_of_further.
    + specialize (Hroom w uuid now eq_refl). simpl. lia.
  - (* deletion *)
    simpl. rewrite deleteFromHistory_history, deleteFromHistory_listedIds.
    intros [Hi%Hinv Hne]%elem_of_difference.
    apply list_elem_of_fmap in Hi as (it & -> & Hit).
    apply list_elem_of_fmap. exists it. split; [done|].
    apply list_elem_of_filter. split; [|done]. set_solver.
  - (* saving an edit *)
    rewrite handle_history_ids by done. simpl.
    rewrite listedIds_applyEdits. apply Hinv.
  - (* listing *)
    rewrite handle_history_ids by done. simpl.
    rewrite listedIds_listOnPlatform.
    destruct (shareUrl win platform nft); [|by apply Hinv].
    intros [->%elem_of_singleton|Hi]%elem_of_union; [|by apply Hinv].
    simpl in Hen. apply andb_true_iff in Hen as [_ Hin%bool_decide_eq_true].
    apply list_elem_of_fmap. by exists nft.
Qed.

(** * Further properties of the code *)

(** ** Listing *)

Lemma listedIds_handle_other (ev : Event) (st : AppState) :
  (∀ item, ev ≠ ClickDelete item) →
  (∀ win platform nft, ev ≠ ClickShare win platform nft) →
  listedIds (handle ev st) = listedIds st.
Proof.
  intros Hdel Hshare. destruct ev; simpl; try done.
  - apply listedIds_handleGenerate.
  - by destruct (Hdel item).
  - apply listedIds_applyEdits.
  - by destruct (Hshare win platform nft).
Qed.

(** X1. A share adds the id of the asset to the listed set, unless it is
    a [github] share of an asset whose prompt holds an unpaired surrogate:
    building the address then throws and the state is left as it was.
    Once a share has listed an asset, sharing it again through any button
    leaves the whole state as it is. In every case the ids already listed
    stay listed, and the history and the selection are unchanged. *)
Theorem listing_idempotent (win1 win2 : Window) (p1 p2 : Platform)
    (nft : GeneratedNFT) (st : AppState) :
  let once := (listOnPlatform win1 p1 nft st).2 in
  history once = history st
  ∧ currentNFT once = currentNFT st
  ∧ listedIds st ⊆ listedIds once
  ∧ (p1 = platform_github → well_formed_utf16 (NFT.prompt nft) = false →
     listOnPlatform win1 p1 nft st = (None, st))
  ∧ (p1 ≠ platform_github ∨ well_formed_utf16 (NFT.prompt nft) = true →
     NFT.id nft ∈ listedIds once
     ∧ size (listedIds once) = (if decide (NFT.id nft ∈ listedIds st)
                                then size (listedIds st)
                                else S (size (listedIds st)))
     ∧ (listOnPlatform win2 p2 nft once).2 = once).
Proof.
  simpl.
  destruct (listOnPlatform_frame win1 p1 nft st) as (Hh & Hc & _).
  split; [exact Hh|]. split; [exact Hc|].
  split.
  { rewrite listedIds_listOnPlatform.
    destruct (shareUrl win1 p1 nft); set_solver. }
  split.
  { intros Hp Hbad.
    destruct (listOnPlatform_cases win1 p1 nft st)
      as [[_ ->]|(address & Hsome & _)]; [done|].
    assert (Hnone : shareUrl win1 p1 nft = None) by by apply shareUrl_None.
    congruence. }
  intros Hok.
  assert (Hsome : ∃ address, shareUrl win1 p1 nft = Some address).
  { destruct (shareUrl win1 p1 nft) as [address|] eqn:Hs; [by eexists|].
    apply shareUrl_None in Hs as [Hp Hbad].
    destruct Hok as [Hne|Hwf]; [done | congruence]. }
  destruct Hsome as [address Hs].
  assert (Honce : (listOnPlatform win1 p1 nft st).2
                  = setListedIds_with (markListed (NFT.id nft)) st).
  { unfold listOnPlatform. by rewrite Hs. }
  rewrite Honce. unfold setListedIds_with, setListedIds, markListed. simpl.
  split; [set_solver|]. split.
  - destruct (decide (NFT.id nft ∈ listedIds st)) as [Hin|Hout].
    + f_equal. set_solver.
    + rewrite size_union by set_solver. by rewrite size_singleton.
  - unfold listOnPlatform. destruct (shareUrl win2 p2 nft); [|done].
    unfold setListedIds_with, setListedIds, markListed. simpl.
    f_equal. set_solver.
Qed.

Lemma listing_idempotent_witness :
  sample_uuid 0 ∈ listedIds
    (listOnPlatform sample_window platform_github (sample_nft 0) market_state).2
  ∧ listOnPlatform sample_window platform_github lone_surrogate_nft market_state
    = (None, market_state).
Proof.
  split.
  - apply (listing_idempotent sample_window sample_window platform_github
             platform_x (sample_nft 0) market_state).
    right. reflexivity.
  - apply (listing_idempotent sample_window sample_window platform_github
             platform_x lone_surrogate_nft market_state); reflexivity.
Defined.

(** X2. Over all events of the page, an id enters the listed set only by
    a share of an asset with that id, and a listed id stays listed unless
    an asset with that id is deleted. *)
Theorem listed_only_by_share_until_delete (ev : Event) (st : AppState)
    (i : js_string) :
  (i ∈ listedIds (handle ev st) →
   i ∈ listedIds st
   ∨ ∃ win platform nft, ev = ClickShare win platform nft ∧ i = NFT.id nft)
  ∧ (i ∈ listedIds st →
     (∀ item, ev = ClickDelete item → NFT.id item ≠ i) →
     i ∈ listedIds (handle ev st)).
Proof.
  split.
  - destruct ev;
      try (rewrite listedIds_handle_other by done; by left).
    + simpl. rewrite deleteFromHistory_listedIds. set_solver.
    + simpl. rewrite listedIds_listOnPlatform.
      destruct (shareUrl win platform nft); [|by left].
      intros [->%elem_of_singleton|Hi]%elem_of_union; [|by left].
      right. by eexists _, _, _.
  - intros Hi Hdel. destruct ev;
      try (by rewrite listedIds_handle_other by done).
    + simpl. rewrite deleteFromHistory_listedIds.
      specialize (Hdel item eq_refl). set_solver.
    + simpl. rewrite listedIds_listOnPlatform.
      destruct (shareUrl win platform nft); set_solver.
Qed.

Lemma listed_only_by_share_until_delete_witness :
  sample_uuid 0 ∈ listedIds (handle ClickCancel listed_state).
Proof.
  apply (listed_only_by_share_until_delete ClickCancel listed_state (sample_uuid 0)).
  - vm_compute. reflexivity.
  - intros item H. discriminate H.
Defined.

(** ** Saving an edit *)

Lemma replace_by_id_other (target : js_string) (updatedNFT : GeneratedNFT)
    (l : list GeneratedNFT) (i : nat) (item : GeneratedNFT) :
  l !! i = Some item → NFT.id item ≠ target →
  replace_by_id target updatedNFT l !! i = Some item.
Proof.
  intros Hi Hne. unfold replace_by_id. rewrite list_lookup_fmap, Hi. simpl.
  by destruct (decide (NFT.id item = target)).
Qed.

Lemma replace_by_id_elem (target : js_string) (updatedNFT : GeneratedNFT)
    (l : list GeneratedNFT) (item : GeneratedNFT) :
  item ∈ l → NFT.id item = target → updatedNFT ∈ replace_by_id target updatedNFT l.
Proof.
  intros Hin Hid. unfold replace_by_id. apply list_elem_of_fmap.
  exists item. split; [|done]. by destruct (decide (NFT.id item = target)).
Qed.

(** X3. Whatever the browser does, a click on Save keeps the ids of the
    history in their order (so its length too), leaves every asset whose
    id is not the selected one exactly as it was, and does not touch the
    listed set, the view, the prompt or the generation flag. *)
Theorem save_touches_only_selected (br : Browser) (st : AppState) :
  let st' := (applyEdits br st).2 in
  NFT.id <$> history st' = NFT.id <$> history st
  ∧ length (history st') = length (history st)
  ∧ (∀ i item, history st !! i = Some item →
               selection st ≠ Some (NFT.id item) →
               history st' !! i = Some item)
  ∧ listedIds st' = listedIds st
  ∧ viewMode st' = viewMode st ∧ prompt st' = prompt st
  ∧ aspectRatio st' = aspectRatio st ∧ isGenerating st' = isGenerating st
  ∧ error st' = error st.
Proof.
  simpl.
  assert (Hids : NFT.id <$> history (applyEdits br st).2 = NFT.id <$> history st).
  { destruct (applyEdits_history br st) as [->|(cur & u & _ & ->)]; [done|].
    apply replace_by_id_ids. }
  split; [exact Hids|]. split.
  { apply (f_equal length) in Hids. by rewrite !length_fmap in Hids. }
  split.
  { intros i item Hi Hsel.
    destruct (applyEdits_history br st) as [->|(cur & u & Hcur & ->)]; [done|].
    apply replace_by_id_other; [done|]. intros Hid. apply Hsel.
    unfold selection. rewrite Hcur. simpl. by rewrite Hid. }
  split; [apply listedIds_applyEdits|].
  unfold applyEdits. destruct (currentNFT st) as [cur|]; [|done].
  destruct (canvasRef_current br); [|done].
  destruct (getContext_2d br); [|done].
  by destruct (image_onload br (NFT.url cur)).
Qed.

Lemma save_touches_only_selected_witness :
  history (applyEdits sample_browser two_assets_state).2 !! 1%nat
  = Some (sample_nft 0).
Proof.
  destruct (save_touches_only_selected sample_browser two_assets_state)
    as (_ & _ & H & _).
  apply H; [reflexivity|]. vm_compute. discriminate.
Defined.

(** X4. Save silently does nothing exactly when there is no selection, no
    mounted canvas, no 2d context, or the image of the selection never
    loads: no canvas is painted and the state is unchanged, the edit panel
    and the edit parameters included. *)
Theorem save_silent_noop (br : Browser) (st : AppState) :
  ((applyEdits br st).1 = None ↔
     currentNFT st = None
     ∨ canvasRef_current br = false
     ∨ getContext_2d br = false
     ∨ ∃ cur, currentNFT st = Some cur ∧ image_onload br (NFT.url cur) = None)
  ∧ ((applyEdits br st).1 = None → (applyEdits br st).2 = st).
Proof.
  unfold applyEdits. destruct (currentNFT st) as [cur|] eqn:Hcur.
  2: { split; [|done]. split; [by left|done]. }
  destruct (canvasRef_current br).
  2: { split; [|done]. split; [by right; left|done]. }
  destruct (getContext_2d br).
  2: { split; [|done]. split; [by right; right; left|done]. }
  destruct (image_onload br (NFT.url cur)) as [img|] eqn:Himg; simpl.
  - split; [|done]. split; [done|].
    intros [H|[H|[H|(c & [= <-] & H)]]]; try done. congruence.
  - split; [|done]. split; [|done]. intros _. right; right; right. by exists cur.
Qed.

Lemma save_silent_noop_witness :
  (applyEdits sample_browser cat_state).2 = cat_state.
Proof.
  destruct (save_silent_noop sample_browser cat_state) as [[_ Hnone] Hsame].
  apply Hsame, Hnone. left. reflexivity.
Defined.

(** X5. When Save paints, the selection becomes the selected asset with
    the encoded canvas as its image and every other field as before;
    if the selection was in the history this updated asset is in the new
    history; the edit panel is closed and the edit parameters are back at
    their defaults. *)
Theorem save_commits (br : Browser) (st : AppState) (canvas : Canvas) :
  (applyEdits br st).1 = Some canvas →
  let st' := (applyEdits br st).2 in
  ∃ cur img,
    currentNFT st = Some cur
    ∧ image_onload br (NFT.url cur) = Some img
    ∧ canvas = paint (editState st) img
    ∧ currentNFT st' = Some (NFT.mk (NFT.id cur) (toDataURL_png br canvas)
                               (NFT.prompt cur) (NFT.timestamp cur)
                               (NFT.aspectRatio cur))
    ∧ (cur ∈ history st →
       NFT.mk (NFT.id cur) (toDataURL_png br canvas) (NFT.prompt cur)
         (NFT.timestamp cur) (NFT.aspectRatio cur) ∈ history st')
    ∧ isEditing st' = false
    ∧ editState st' = INITIAL_EDIT_STATE.
Proof.
  unfold applyEdits. destruct (currentNFT st) as [cur|] eqn:Hcur; [|done].
  destruct (canvasRef_current br); [|done].
  destruct (getContext_2d br); [|done].
  destruct (image_onload br (NFT.url cur)) as [img|] eqn:Himg; [|done].
  simpl. intros [= <-]. exists cur, img.
  repeat split; try done.
  intros Hin. by apply (replace_by_id_elem _ _ _ cur).
Qed.

Lemma save_commits_witness :
  isEditing (applyEdits sample_browser turned_state).2 = false
  ∧ editState (applyEdits sample_browser turned_state).2 = INITIAL_EDIT_STATE.
Proof.
  destruct (save_commits sample_browser turned_state
              (paint (editState turned_state)
                 {| img_src := sample_image; img_width := 800; img_height := 600 |}))
    as (cur & img & _ & _ & _ & _ & _ & He & Hs); [reflexivity|].
  split; [exact He | exact Hs].
Defined.

(** ** Invariants of the reachable states *)

Lemma editState_handleGenerate (w : World) (uuid : js_string) (now : Z)
    (st : AppState) :
  editState (handleGenerate w uuid now st).2 = editState st.
Proof.
  unfold handleGenerate, handleGenerate_start.
  destruct (falsy (trim (prompt st))); [done|].
  destruct (generateNFTImage w (prompt st) (aspectRatio st)) as [log [u|e]]; done.
Qed.

Lemma editState_deleteFromHistory (id : js_string) (st : AppState) :
  editState (deleteFromHistory id st) = editState st.
Proof.
  unfold deleteFromHistory. by destruct (decide (selection st = Some id)).
Qed.

Lemma run_invariant (P : AppState → Prop) :
  (∀ ev st, enabled ev st = true → P st → P (handle ev st)) →
  ∀ evs st st', run evs st = Some st' → P st → P st'.
Proof.
  intros Hstep evs. induction evs as [|ev rest IH]; intros st st'; simpl.
  - by intros [= ->].
  - unfold step. destruct (enabled ev st) eqn:Hen; [|done].
    intros Hrun HP. apply (IH _ _ Hrun). by apply Hstep.
Qed.

Lemma handle_selection_in_history (ev : Event) (st : AppState) :
  enabled ev st = true →
  selection_in_history st → selection_in_history (handle ev st).
Proof.
  unfold selection_in_history. intros Hen Hinv cur'.
  destruct ev; simpl; try apply Hinv.
  - (* generation *)
    destruct (handleGenerate_outcome w uuid now st)
      as [(msg & He & Hh & Hc)|(imageUrl & Hu & He & Hc & Hh)];
      rewrite Hh, Hc; [apply Hinv|].
    intros [= <-]. rewrite create_take. simpl. apply list_elem_of_here.
  - (* a click on a tile *)
    intros [= <-]. simpl in Hen.
    by apply andb_true_iff in Hen as [_ Hin%bool_decide_eq_true].
  - (* deletion *)
    rewrite deleteFromHistory_history. unfold deleteFromHistory.
    destruct (decide (selection st = Some (NFT.id item))) as [Hsel|Hsel];
      simpl; [done|].
    intros Hcur. apply list_elem_of_filter. split; [|by apply Hinv].
    intros Hid. apply Hsel. unfold selection. rewrite Hcur. simpl. by rewrite Hid.
  - (* saving an edit *)
    unfold applyEdits.
    destruct (currentNFT st) as [cur|] eqn:Hcur;
      [|simpl; rewrite Hcur; apply Hinv].
    destruct (canvasRef_current br); [|simpl; rewrite Hcur; apply Hinv].
    destruct (getContext_2d br); [|simpl; rewrite Hcur; apply Hinv].
    destruct (image_onload br (NFT.url cur)) as [img|];
      [|simpl; rewrite Hcur; apply Hinv].
    simpl. intros [= <-].
    apply (replace_by_id_elem _ _ _ cur); [by apply Hinv|done].
  - (* a share *)
    destruct (listOnPlatform_frame win platform nft st) as (-> & -> & _).
    apply Hinv.
Qed.

(** X6. In every state reachable through the controls of the page, the
    selected asset, if there is one, is an asset of the history. *)
Theorem reachable_selection_in_history (st : AppState) (cur : GeneratedNFT) :
  reachable st → currentNFT st = Some cur → cur ∈ history st.
Proof.
  intros [evs Hrun]. revert cur.
  apply (run_invariant selection_in_history handle_selection_in_history
           evs initialState st Hrun).
  intros cur. discriminate.
Qed.

Lemma reachable_selection_in_history_witness :
  sample_nft 0 ∈ history after_cancel.
Proof.
  apply (reachable_selection_in_history after_cancel (sample_nft 0)).
  - exists cancel_trace. vm_compute. reflexivity.
  - vm_compute. reflexivity.
Defined.

Lemma handle_edit_parameters_in_range (ev : Event) (st : AppState) :
  enabled ev st = true →
  edit_parameters_in_range (editState st) →
  edit_parameters_in_range (editState (handle ev st)).
Proof.
  unfold edit_parameters_in_range. intros Hen Hinv.
  destruct ev; simpl; try exact Hinv.
  - by rewrite editState_handleGenerate.
  - by rewrite editState_deleteFromHistory.
  - (* a slider *)
    simpl in Hen. apply andb_true_iff in Hen as [Hen Hhi%Z.leb_le].
    apply andb_true_iff in Hen as [_ Hlo%Z.leb_le].
    destruct prop; simpl; intuition lia.
  - (* Rotate *)
    destruct Hinv as (Hb & Hc & Hg & Hs & Hr).
    repeat (split; [done|]).
    destruct Hr as [-> | [-> | [-> | ->]]]; vm_compute; tauto.
  - (* Reset *)
    vm_compute. intuition congruence.
  - (* Save *)
    unfold applyEdits. destruct (currentNFT st) as [cur|]; [|done].
    destruct (canvasRef_current br); [|done].
    destruct (getContext_2d br); [|done].
    destruct (image_onload br (NFT.url cur)); [|done].
    vm_compute. intuition congruence.
  - (* a share *)
    by destruct (listOnPlatform_frame win platform nft st) as (_ & _ & -> & _).
Qed.

(** X7. In every reachable state brightness, contrast and grayscale lie
    between 0 and 200, sepia is 0 (no control changes it), and the
    rotation is 0, 90, 180 or 270. *)
Theorem reachable_edit_parameters (st : AppState) :
  reachable st →
  0 ≤ brightness (editState st) ≤ 200
  ∧ 0 ≤ contrast (editState st) ≤ 200
  ∧ 0 ≤ grayscale (editState st) ≤ 200
  ∧ sepia (editState st) = 0
  ∧ (rotation (editState st) = 0 ∨ rotation (editState st) = 90
     ∨ rotation (editState st) = 180 ∨ rotation (editState st) = 270).
Proof.
  intros [evs Hrun].
  apply (run_invariant (λ s, edit_parameters_in_range (editState s))
           handle_edit_parameters_in_range evs initialState st Hrun).
  vm_compute. intuition congruence.
Qed.

Lemma reachable_edit_parameters_witness :
  sepia (editState after_cancel) = 0.
Proof.
  apply (reachable_edit_parameters after_cancel).
  exists cancel_trace. vm_compute. reflexivity.
Defined.

(** X8. From a rotation of 0, 90, 180 or 270, a click on Rotate gives
    again one of these four, turns a canvas that kept the size of the
    image into one with width and height exchanged and back, and four
    clicks give the state one started from. *)
Theorem rotate_quarter_turns (st : AppState) (img : HTMLImage) :
  (rotation (editState st) = 0 ∨ rotation (editState st) = 90
   ∨ rotation (editState st) = 180 ∨ rotation (editState st) = 270) →
  let es' := editState (onRotate st) in
  (rotation es' = 0 ∨ rotation es' = 90 ∨ rotation es' = 180 ∨ rotation es' = 270)
  ∧ isHorizontalRotation es' = negb (isHorizontalRotation (editState st))
  ∧ width (paint es' img) = height (paint (editState st) img)
  ∧ height (paint es' img) = width (paint (editState st) img)
  ∧ onRotate (onRotate (onRotate (onRotate st))) = st.
Proof.
  destruct st as [v p ar g h l e c sh ed [b ct gr se r]]. simpl.
  intros [-> | [-> | [-> | ->]]]; vm_compute; tauto.
Qed.

Lemma rotate_quarter_turns_witness :
  width (paint (editState (onRotate turned_state))
           {| img_src := sample_image; img_width := 800; img_height := 600 |})
  = 800.
Proof.
  destruct (rotate_quarter_turns turned_state
              {| img_src := sample_image; img_width := 800; img_height := 600 |})
    as (_ & _ & Hw & _); [right; left; reflexivity|].
  rewrite Hw. reflexivity.
Defined.

(** X9. Only the sliders, Rotate, Reset and Save change the edit
    parameters: a generation, a click on a tile, a deletion, Cancel, a
    change of view, of prompt or of aspect ratio, and a share all leave
    them as they are. *)
Theorem edit_parameters_survive (ev : Event) (st : AppState) :
  changes_edit_parameters ev = false →
  editState (handle ev st) = editState st.
Proof.
  destruct ev; simpl; try done; intros _.
  - apply editState_handleGenerate.
  - apply editState_deleteFromHistory.
  - apply listOnPlatform_frame.
Qed.

Lemma edit_parameters_survive_witness :
  editState (handle (ClickTile (sample_nft 0)) turned_state)
  = mkEdit 100 100 0 0 90.
Proof.
  rewrite (edit_parameters_survive (ClickTile (sample_nft 0)) turned_state);
    reflexivity.
Defined.

Lemma reachable_history_bound_witness :
  (length (history after_cancel) ≤ 12)%nat.
Proof.
  apply (reachable_history_bound after_cancel).
  exists cancel_trace. vm_compute. reflexivity.
Defined.

Lemma handle_listed_in_history_witness :
  listed_in_history
    (handle (ClickShare sample_window platform_linkedin (sample_nft 0)) market_state).
Proof.
  apply (handle_listed_in_history
           (ClickShare sample_window platform_linkedin (sample_nft 0)) market_state).
  - vm_compute. reflexivity.
  - intros w uuid now H. discriminate H.
  - intros i Hi. vm_compute in Hi. discriminate Hi.
Defined.

(** ** Loading and persisting *)

Lemma load_listed_frame (parse : js_string → option (list js_string))
    (ls : LocalStorage) (st : AppState) :
  history (load_listed parse ls st) = history st
  ∧ currentNFT (load_listed parse ls st) = currentNFT st
  ∧ error (load_listed parse ls st) = error st
  ∧ isEditing (load_listed parse ls st) = isEditing st.
Proof.
  unfold load_listed. destruct (nft_listed ls) as [s|]; [|done].
  destruct (falsy s); [done|]. by destruct (parse s).
Qed.

Lemma load_history_frame (parse : js_string → option (list GeneratedNFT))
    (ls : LocalStorage) (st : AppState) :
  listedIds (load_history parse ls st) = listedIds st
  ∧ error (load_history parse ls st) = error st
  ∧ isEditing (load_history parse ls st) = isEditing st.
Proof.
  unfold load_history. destruct (nft_history ls) as [s|]; [|done].
  destruct (falsy s); [done|]. destruct (parse s) as [[|first rest]|]; done.
Qed.

Lemma load_history_unreadable (parse : js_string → option (list GeneratedNFT))
    (ls : LocalStorage) (st : AppState) :
  unreadable parse (nft_history ls) → load_history parse ls st = st.
Proof.
  unfold load_history. intros [->|[->|(s & -> & Hs)]]; [done..|].
  destruct (falsy s); [done|]. by rewrite Hs.
Qed.

(** X12. Loading recovers from bad storage without an error: a history
    record that is absent, empty or does not parse leaves the history and
    the selection as they were, and likewise for the listed record and the
    listed set. The two records are read independently, so a bad one does
    not keep the other from being loaded, and the error message and the
    edit flag are never touched. *)
Theorem load_recovers
    (JSON_parse_history : js_string → option (list GeneratedNFT))
    (JSON_parse_listed : js_string → option (list js_string))
    (ls : LocalStorage) (st : AppState) :
  let st' := load JSON_parse_history JSON_parse_listed ls st in
  (unreadable JSON_parse_history (nft_history ls) →
   history st' = history st ∧ currentNFT st' = currentNFT st)
  ∧ (unreadable JSON_parse_listed (nft_listed ls) →
     listedIds st' = listedIds st)
  ∧ (∀ s ids, nft_listed ls = Some s → s ≠ [] →
              JSON_parse_listed s = Some ids →
              ∀ i, i ∈ listedIds st' ↔ i ∈ ids)
  ∧ (∀ s parsed, nft_history ls = Some s → s ≠ [] →
                 JSON_parse_history s = Some parsed → history st' = parsed)
  ∧ error st' = error st
  ∧ isEditing st' = isEditing st.
Proof.
  simpl. unfold load.
  destruct (load_listed_frame JSON_parse_listed ls
              (load_history JSON_parse_history ls st)) as (Hh & Hc & He & Hi).
  destruct (load_history_frame JSON_parse_history ls st) as (Hl' & He' & Hi').
  split; [|split; [|split; [|split; [|split]]]].
  - intros Hbad. rewrite Hh, Hc. by rewrite load_history_unreadable.
  - intros Hbad. rewrite <- Hl'.
    generalize (load_history JSON_parse_history ls st). intros s0.
    unfold load_listed. destruct Hbad as [->|[->|(s & -> & Hs)]]; [done..|].
    destruct (falsy s); [done|]. by rewrite Hs.
  - intros s ids Hs Hne%falsy_false_iff Hp i.
    unfold load_listed. rewrite Hs, Hne, Hp. simpl.
    apply elem_of_list_to_set.
  - intros s parsed Hs Hne%falsy_false_iff Hp. rewrite Hh.
    unfold load_history. rewrite Hs, Hne, Hp. by destruct parsed.
  - by rewrite He, He'.
  - by rewrite Hi, Hi'.
Qed.

Lemma load_recovers_witness :
  history (load (λ _, None) (λ _, Some [sample_uuid 0])
             {| nft_history := Some (lit "{broken");
                nft_listed := Some (lit "[id-0]") |} initialState) = []
  ∧ sample_uuid 0 ∈ listedIds
      (load (λ _, None) (λ _, Some [sample_uuid 0])
         {| nft_history := Some (lit "{broken");
            nft_listed := Some (lit "[id-0]") |} initialState).
Proof.
  destruct (load_recovers (λ _, None) (λ _, Some [sample_uuid 0])
              {| nft_history := Some (lit "{broken");
                 nft_listed := Some (lit "[id-0]") |} initialState)
    as (Hh & _ & Hl & _).
  split.
  - apply Hh. right; right. by eexists.
  - apply (Hl (lit "[id-0]") [sample_uuid 0]); [reflexivity | discriminate
      | reflexivity | apply list_elem_of_here].
Defined.

(** X13. Round trip through local storage. If [JSON.parse] reads back what
    [JSON.stringify] wrote for the history and for the listed ids of a
    state, then loading what was persisted restores the history, in its
    order, and the listed set; the selection is not stored: it becomes the
    newest asset, or stays as it was when the history is empty. *)
Theorem persist_load_round_trip
    (JSON_stringify_history : list GeneratedNFT → js_string)
    (JSON_stringify_listed : list js_string → js_string)
    (JSON_parse_history : js_string → option (list GeneratedNFT))
    (JSON_parse_listed : js_string → option (list js_string))
    (st st0 : AppState) :
  JSON_stringify_history (history st) ≠ [] →
  JSON_parse_history (JSON_stringify_history (history st)) = Some (history st) →
  JSON_stringify_listed (elements (listedIds st)) ≠ [] →
  JSON_parse_listed (JSON_stringify_listed (elements (listedIds st)))
    = Some (elements (listedIds st)) →
  let st' := load JSON_parse_history JSON_parse_listed
               (persist JSON_stringify_history JSON_stringify_listed st) st0 in
  history st' = history st
  ∧ listedIds st' = listedIds st
  ∧ currentNFT st' = match history st with
                     | first :: _ => Some first
                     | [] => currentNFT st0
                     end.
Proof.
  intros Hh0%falsy_false_iff Hh Hl0%falsy_false_iff Hl. simpl.
  unfold load, load_listed, load_history, persist. simpl.
  rewrite Hh0, Hh, Hl0, Hl.
  split; [by destruct (history st)|]. split.
  - destruct (history st); simpl; apply list_to_set_elements_L.
  - by destruct (history st).
Qed.

Lemma persist_load_round_trip_witness :
  history (load (λ _, Some (history two_assets_state))
             (λ _, Some (elements (listedIds two_assets_state)))
             (persist (λ _, lit "H") (λ _, lit "L") two_assets_state)
             initialState)
  = [sample_nft 1; sample_nft 0].
Proof.
  destruct (persist_load_round_trip (λ _, lit "H") (λ _, lit "L")
              (λ _, Some (history two_assets_state))
              (λ _, Some (elements (listedIds two_assets_state)))
              two_assets_state initialState) as (Hh & _);
    [discriminate | reflexivity | discriminate | reflexivity |].
  exact Hh.
Defined.

(** ** The service: failures and extraction *)

Lemma scan_parts_first (imageUrl : js_string) (pre : list Part) (part : Part)
    (post : list Part) (blob : Blob) :
  existsb part_has_inline pre = false →
  inlineData part = Some blob →
  scan_parts imageUrl (pre ++ part :: post) = DATA_URL_PREFIX ++ data blob.
Proof.
  intros Hpre Hpart. induction pre as [|q pre IH]; simpl.
  - by rewrite Hpart.
  - simpl in Hpre. apply orb_false_elim in Hpre as [Hq Hpre].
    unfold part_has_inline in Hq. destruct (inlineData q); [done|]. by apply IH.
Qed.

Lemma scan_parts_found (ps : list Part) :
  scan_parts [] ps ≠ [] →
  ∃ pre part post blob,
    ps = pre ++ part :: post
    ∧ existsb part_has_inline pre = false
    ∧ inlineData part = Some blob
    ∧ scan_parts [] ps = DATA_URL_PREFIX ++ data blob.
Proof.
  induction ps as [|q ps IH]; simpl; [done|].
  destruct (inlineData q) as [blob|] eqn:Hq.
  - intros _. by exists [], q, ps, blob.
  - intros (pre & part & post & blob & -> & Hpre & Hpart & Hscan)%IH.
    exists (q :: pre), part, post, blob. simpl. unfold part_has_inline at 1.
    by rewrite Hq.
Qed.

(** X14. Without an API key (unset, or the empty string) the service throws
    the missing-key error and sends nothing to the backend; an error thrown
    by the backend is rethrown as it is, after exactly one request; and in
    no case is more than one request sent. *)
Theorem service_failures (w : World) (p : js_string) (ar : AspectRatio) :
  (API_KEY w = None ∨ API_KEY w = Some [] →
   generateNFTImage w p ar = ([], Throw API_KEY_MISSING))
  ∧ (∀ k e, API_KEY w = Some k → k ≠ [] →
            generateContent w (request_for p ar) = Throw e →
            generateNFTImage w p ar = ([request_for p ar], Throw e))
  ∧ (length (generateNFTImage w p ar).1 ≤ 1)%nat.
Proof.
  rewrite generateNFTImage_unfold. unfold apiKey_missing.
  split; [|split].
  - by intros [->| ->].
  - intros k e -> Hk%falsy_false_iff He. by rewrite Hk, He.
  - destruct (API_KEY w) as [k|]; [|simpl; lia].
    destruct (falsy k); [simpl; lia|].
    destruct (generateContent w (request_for p ar)) as [response|e]; [|simpl; lia].
    destruct (falsy (extract_imageUrl response)); simpl; lia.
Qed.

Lemma service_failures_witness :
  generateNFTImage keyless_world (lit "cat") AR_1_1 = ([], Throw API_KEY_MISSING)
  ∧ generateNFTImage failing_world (lit "cat") AR_1_1
    = ([request_for (lit "cat") AR_1_1], Throw (Error (lit "503"))).
Proof.
  split.
  - apply (service_failures keyless_world (lit "cat") AR_1_1). right. reflexivity.
  - apply (service_failures failing_world (lit "cat") AR_1_1) with (k := lit "k");
      [reflexivity | discriminate | reflexivity].
Defined.

(** X15. When the backend answers and the parts of the first candidate
    hold a part with inline data after parts that have none, the service
    returns the data-URL prefix followed by the data of that first inline
    part, whatever comes after it or in other candidates. *)
Theorem service_returns_first_inline (w : World) (p : js_string)
    (ar : AspectRatio) (response : GenerateContentResponse)
    (pre : list Part) (part : Part) (post : list Part) (blob : Blob) :
  apiKey_missing w = false →
  generateContent w (request_for p ar) = Return response →
  first_candidate_parts response = Some (pre ++ part :: post) →
  existsb part_has_inline pre = false →
  inlineData part = Some blob →
  generateNFTImage w p ar
  = ([request_for p ar], Return (DATA_URL_PREFIX ++ data blob)).
Proof.
  intros Hkey Hresp Hparts Hpre Hpart.
  rewrite generateNFTImage_unfold, Hkey, Hresp.
  unfold extract_imageUrl. rewrite Hparts.
  by rewrite (scan_parts_first [] pre part post blob Hpre Hpart).
Qed.

Lemma service_returns_first_inline_witness :
  generateNFTImage sample_world (lit "cat") AR_1_1
  = ([request_for (lit "cat") AR_1_1], Return sample_image).
Proof.
  apply (service_returns_first_inline sample_world (lit "cat") AR_1_1
           {| candidates := Some
              [ {| content := Some {| parts := Some
                   [ {| inlineData := None |};
                     {| inlineData := Some {| data := lit "AAAA" |} |} ] |} |} ] |}
           [ {| inlineData := None |} ]
           {| inlineData := Some {| data := lit "AAAA" |} |} []
           {| data := lit "AAAA" |}); reflexivity.
Defined.

(** X16. Every string the service returns is [data:image/png;base64,]
    followed by the data of the first part with inline data among the
    parts of the first candidate of the response that the backend gave to
    the one request sent. *)
Theorem service_return_shape (w : World) (p : js_string) (ar : AspectRatio)
    (imageUrl : js_string) :
  (generateNFTImage w p ar).2 = Return imageUrl →
  (generateNFTImage w p ar).1 = [request_for p ar]
  ∧ ∃ response pre part post blob,
      generateContent w (request_for p ar) = Return response
      ∧ first_candidate_parts response = Some (pre ++ part :: post)
      ∧ existsb part_has_inline pre = false
      ∧ inlineData part = Some blob
      ∧ imageUrl = DATA_URL_PREFIX ++ data blob.
Proof.
  rewrite generateNFTImage_unfold.
  destruct (apiKey_missing w); [done|].
  destruct (generateContent w (request_for p ar)) as [response|e]; [|done].
  destruct (falsy (extract_imageUrl response)) eqn:Hf; [done|].
  simpl. intros [= <-]. split; [done|].
  apply falsy_false_iff in Hf. unfold extract_imageUrl in *.
  destruct (first_candidate_parts response) as [ps|] eqn:Hps; [|done].
  destruct (scan_parts_found ps Hf)
    as (pre & part & post & blob & -> & Hpre & Hpart & Hscan).
  exists response, pre, part, post, blob.
  split; [done|]. split; [done|]. split; [done|]. split; [done|]. exact Hscan.
Qed.

Lemma service_return_shape_witness :
  (generateNFTImage sample_world (lit "cat") AR_1_1).1
  = [request_for (lit "cat") AR_1_1].
Proof.
  apply (service_return_shape sample_world (lit "cat") AR_1_1 sample_image).
  reflexivity.
Defined.

(** X17. Only the first candidate is looked at: when the backend answers
    and the first candidate is missing or carries no inline data, the
    service throws the extraction error, whatever the other candidates
    hold. *)
Theorem service_ignores_later_candidates (w : World) (p : js_string)
    (ar : AspectRatio) (response : GenerateContentResponse) :
  apiKey_missing w = false →
  generateContent w (request_for p ar) = Return response →
  match candidates response with
  | Some (c :: _) => candidate_has_inline c = false
  | _ => True
  end →
  generateNFTImage w p ar = ([request_for p ar], Throw EXTRACTION_FAILED).
Proof.
  intros Hkey Hresp Hfirst.
  rewrite generateNFTImage_unfold, Hkey, Hresp.
  assert (Hx : extract_imageUrl response = []).
  { unfold extract_imageUrl, first_candidate_parts.
    destruct (candidates response) as [[|c cs]|]; [done| |done].
    unfold candidate_has_inline in Hfirst.
    destruct (content c) as [ct|]; [|done].
    destruct (parts ct) as [ps|]; [|done].
    by apply scan_parts_no_inline. }
  by rewrite Hx.
Qed.

Lemma service_ignores_later_candidates_witness :
  has_inline_payload second_candidate_response = true
  ∧ generateNFTImage second_candidate_world (lit "cat") AR_1_1
    = ([request_for (lit "cat") AR_1_1], Throw EXTRACTION_FAILED).
Proof.
  split; [reflexivity|].
  apply (service_ignores_later_candidates second_candidate_world (lit "cat")
           AR_1_1 second_candidate_response); reflexivity.
Defined.

(** ** Generation: when the backend is contacted, and the two outcomes *)

(** X18. [handleGenerate] sends nothing to the backend exactly when the
    prompt is empty or all whitespace or the API key is missing; otherwise
    it sends exactly the one request built from the prompt and the aspect
    ratio of the state. *)
Theorem backend_contacted_iff (w : World) (uuid : js_string) (now : Z)
    (st : AppState) :
  ((handleGenerate w uuid now st).1 = [] ↔
     forallb is_white_space (prompt st) = true ∨ apiKey_missing w = true)
  ∧ ((handleGenerate w uuid now st).1 ≠ [] →
     (handleGenerate w uuid now st).1 = [request_for (prompt st) (aspectRatio st)]).
Proof.
  destruct (forallb is_white_space (prompt st)) eqn:Hws.
  - rewrite handleGenerate_blank by done. simpl. split; [|done].
    split; [by left|done].
  - rewrite handleGenerate_called by done. simpl.
    rewrite generateNFTImage_unfold.
    destruct (apiKey_missing w).
    + simpl. split; [|done]. split; [by right|done].
    + destruct (generateContent w (request_for (prompt st) (aspectRatio st)))
        as [response|e];
        [destruct (falsy (extract_imageUrl response))|]; simpl;
        (split; [|done]); (split; [done|]); by intros [?|?].
Qed.

Lemma backend_contacted_iff_witness :
  (handleGenerate keyless_world (sample_uuid 0) 0 cat_state).1 = []
  ∧ (handleGenerate failing_world (sample_uuid 0) 0 cat_state).1
    = [request_for (lit "cat") AR_1_1].
Proof.
  split.
  - apply (backend_contacted_iff keyless_world (sample_uuid 0) 0 cat_state).
    right. reflexivity.
  - apply (backend_contacted_iff failing_world (sample_uuid 0) 0 cat_state).
    vm_compute. discriminate.
Defined.

(** X19. A generation that succeeds: with a prompt that is not blank and a
    service that returns an image, the new state has the new asset (the
    fresh id, the image, the prompt as typed, the clock, the aspect ratio)
    as its selection and at the head of the history cut to 12, no error
    message, the generation flag and the edit panel off; the view, the
    prompt, the aspect ratio, the listed set and the edit parameters are
    as before. *)
Theorem generate_success (w : World) (uuid : js_string) (now : Z)
    (st : AppState) (imageUrl : js_string) :
  forallb is_white_space (prompt st) = false →
  (generateNFTImage w (prompt st) (aspectRatio st)).2 = Return imageUrl →
  let newNFT := NFT.mk uuid imageUrl (prompt st) now (aspectRatio st) in
  (handleGenerate w uuid now st).2
  = mkApp (viewMode st) (prompt st) (aspectRatio st) false
      (take 12 (newNFT :: history st)) (listedIds st) None (Some newNFT)
      (shareStatus st) false (editState st).
Proof.
  intros Hws Hret. simpl. rewrite handleGenerate_called by done. simpl.
  rewrite Hret. unfold handleGenerate_settle, setHistory_with. simpl.
  rewrite create_take. reflexivity.
Qed.

Lemma generate_success_witness :
  (handleGenerate sample_world (sample_uuid 0) 0 cat_state).2
  = mkApp forge (lit "cat") AR_1_1 false [sample_nft 0] ∅ None
      (Some (sample_nft 0)) idle false INITIAL_EDIT_STATE.
Proof.
  apply (generate_success sample_world (sample_uuid 0) 0 cat_state sample_image);
    reflexivity.
Defined.

(** X20. A generation that fails: with a prompt that is not blank and a
    service that throws, the error message becomes the message of the
    thrown error, or the generic one when that message is empty; the
    history, the selection and the listed set are unchanged, the
    generation flag is off, and the edit panel has been closed all the
    same. *)
Theorem generate_failure (w : World) (uuid : js_string) (now : Z)
    (st : AppState) (e : JsError) :
  forallb is_white_space (prompt st) = false →
  (generateNFTImage w (prompt st) (aspectRatio st)).2 = Throw e →
  (handleGenerate w uuid now st).2
  = mkApp (viewMode st) (prompt st) (aspectRatio st) false (history st)
      (listedIds st)
      (Some (match message e with [] => GENERATION_FAILED | _ => message e end))
      (currentNFT st) (shareStatus st) false (editState st).
Proof.
  intros Hws Hthrow. rewrite handleGenerate_called by done. simpl.
  rewrite Hthrow. unfold handleGenerate_settle. simpl.
  by destruct (message e).
Qed.

Lemma generate_failure_witness :
  error (handleGenerate failing_world (sample_uuid 1) 1 two_assets_state).2
  = Some (lit "503")
  ∧ isEditing (handleGenerate failing_world (sample_uuid 1) 1 two_assets_state).2
    = false.
Proof.
  rewrite (generate_failure failing_world (sample_uuid 1) 1 two_assets_state
             (Error (lit "503"))); [|reflexivity..].
  split; reflexivity.
Defined.

(** ** Composition of insertions and of deletions *)

Lemma take_app_take {A} (k : nat) (a b : list A) :
  take k (a ++ take k b) = take k (a ++ b).
Proof.
  rewrite !take_app, take_take. f_equal. f_equal. lia.
Qed.

(** X21. On a history within capacity, inserting assets one after the
    other with [create] gives the assets in reverse order of insertion
    followed by the old history, cut to 12 entries; from 12 insertions on,
    nothing of the old history is left. *)
Theorem creates_compose (news : list GeneratedNFT) (h : list GeneratedNFT) :
  (length h ≤ 12)%nat →
  fold_left (λ prev newNFT, create newNFT prev) news h
  = take 12 (reverse news ++ h)
  ∧ ((12 ≤ length news)%nat →
     fold_left (λ prev newNFT, create newNFT prev) news h
     = take 12 (reverse news)).
Proof.
  intros Hlen.
  assert (Hfold : fold_left (λ prev newNFT, create newNFT prev) news h
                  = take 12 (reverse news ++ h)).
  { revert h Hlen. induction news as [|n news IH]; intros h Hlen; simpl.
    - by rewrite take_ge.
    - rewrite IH by apply create_length.
      rewrite create_take, take_app_take, reverse_cons, <- app_assoc. done. }
  split; [exact Hfold|].
  intros Hnews. rewrite Hfold, take_app, length_reverse.
  replace (12 - length news)%nat with 0%nat by lia.
  by rewrite take_0, app_nil_r.
Qed.

Lemma creates_compose_witness :
  fold_left (λ prev newNFT, create newNFT prev)
    (sample_nft <$> seqZ 1 13) [sample_nft 0]
  = take 12 (reverse (sample_nft <$> seqZ 1 13)).
Proof.
  destruct (creates_compose (sample_nft <$> seqZ 1 13) [sample_nft 0])
    as [_ H]; [simpl; lia|].
  apply H. vm_compute. lia.
Defined.

Lemma deleteFromHistory_unfold (id : js_string) (st : AppState) :
  deleteFromHistory id st
  = mkApp (viewMode st) (prompt st) (aspectRatio st) (isGenerating st)
      (filter (λ item, NFT.id item ≠ id) (history st))
      (listedIds st ∖ {[ id ]}) (error st)
      (if decide (selection st = Some id) then None else currentNFT st)
      (shareStatus st) (isEditing st) (editState st).
Proof.
  unfold deleteFromHistory. by destruct (decide (selection st = Some id)).
Qed.

Lemma filter_by_id_comm (a b : js_string) (l : list GeneratedNFT) :
  filter (λ item, NFT.id item ≠ a) (filter (λ item, NFT.id item ≠ b) l)
  = filter (λ item, NFT.id item ≠ b) (filter (λ item, NFT.id item ≠ a) l).
Proof.
  induction l as [|item l IH]; [done|].
  destruct (decide (NFT.id item = a)) as [Ha|Ha];
    destruct (decide (NFT.id item = b)) as [Hb|Hb];
    repeat (first [ rewrite (filter_cons_True (λ item, NFT.id item ≠ a)) by done
                  | rewrite (filter_cons_True (λ item, NFT.id item ≠ b)) by done
                  | rewrite (filter_cons_False (λ item, NFT.id item ≠ a))
                      by (intros H; by apply H)
                  | rewrite (filter_cons_False (λ item, NFT.id item ≠ b))
                      by (intros H; by apply H) ]);
    by rewrite ?IH.
Qed.

(** X22. Deletions compose: deleting two ids in either order gives the
    same state, and deleting an id a second time changes nothing. *)
Theorem delete_commutes_idempotent (a b : js_string) (st : AppState) :
  deleteFromHistory a (deleteFromHistory b st)
  = deleteFromHistory b (deleteFromHistory a st)
  ∧ deleteFromHistory a (deleteFromHistory a st) = deleteFromHistory a st.
Proof.
  rewrite !deleteFromHistory_unfold. unfold selection. simpl. split.
  - f_equal.
    + apply filter_by_id_comm.
    + set_solver.
    + destruct (currentNFT st) as [cur|]; simpl; repeat case_decide; done.
  - f_equal.
    + rewrite list_filter_filter. apply list_filter_iff. tauto.
    + set_solver.
    + destruct (currentNFT st) as [cur|]; simpl; repeat case_decide; done.
Qed.

(** ** The name of a download *)

Lemma replace_whitespace_runs_clean (in_run : bool) (s : js_string) :
  forallb (λ c, negb (is_white_space c)) (replace_whitespace_runs in_run s) = true.
Proof.
  revert in_run. induction s as [|c s IH]; intros in_run; simpl; [done|].
  destruct (is_white_space c) eqn:Hc.
  - destruct in_run; simpl; [apply IH|]. rewrite IH. reflexivity.
  - simpl. by rewrite Hc, IH.
Qed.

Lemma replace_whitespace_runs_length (in_run : bool) (s : js_string) :
  (length (replace_whitespace_runs in_run s) ≤ length s)%nat.
Proof.
  revert in_run. induction s as [|c s IH]; intros in_run; simpl; [done|].
  destruct (is_white_space c).
  - destruct in_run; simpl; [specialize (IH true); lia|].
    specialize (IH true). lia.
  - simpl. specialize (IH false). lia.
Qed.

Lemma replace_whitespace_runs_id (in_run : bool) (s : js_string) :
  forallb (λ c, negb (is_white_space c)) s = true →
  replace_whitespace_runs in_run s = s.
Proof.
  revert in_run. induction s as [|c s IH]; intros in_run; simpl; [done|].
  intros [Hc Hs]%andb_true_iff. apply negb_true_iff in Hc. rewrite Hc.
  by rewrite IH.
Qed.

Lemma replace_whitespace_runs_blank (s : js_string) :
  forallb is_white_space s = true → replace_whitespace_runs true s = [].
Proof.
  induction s as [|c s IH]; simpl; [done|].
  intros [Hc Hs]%andb_true_iff. rewrite Hc. by apply IH.
Qed.

Lemma replace_whitespace_runs_word (in_run : bool) (word s : js_string) :
  no_white_space word = true →
  word ≠ [] ∨ in_run = false →
  replace_whitespace_runs in_run (word ++ s)
  = word ++ replace_whitespace_runs false s.
Proof.
  revert in_run. induction word as [|c word IH]; intros in_run Hw Hne.
  - destruct Hne as [?| ->]; done.
  - simpl in *. apply andb_true_iff in Hw as [Hc%negb_true_iff Hw].
    rewrite Hc. f_equal. apply IH; [done | by right].
Qed.

Lemma replace_whitespace_runs_in_run (run s : js_string) :
  forallb is_white_space run = true →
  replace_whitespace_runs true (run ++ s) = replace_whitespace_runs true s.
Proof.
  induction run as [|c run IH]; simpl; [done|].
  intros [Hc Hr]%andb_true_iff. rewrite Hc. by apply IH.
Qed.

Lemma replace_whitespace_runs_run (run s : js_string) :
  run ≠ [] → forallb is_white_space run = true →
  replace_whitespace_runs false (run ++ s)
  = UNDERSCORE :: replace_whitespace_runs true s.
Proof.
  destruct run as [|c run]; [done|]. intros _. simpl.
  intros [Hc Hr]%andb_true_iff. rewrite Hc. f_equal.
  by apply replace_whitespace_runs_in_run.
Qed.

Lemma replace_whitespace_runs_pieces (pieces : list (js_string * js_string)) :
  well_split pieces →
  replace_whitespace_runs false (concat ((λ rw, rw.1 ++ rw.2) <$> pieces))
  = concat ((λ rw, UNDERSCORE :: rw.2) <$> pieces).
Proof.
  induction pieces as [|[run word] rest IH]; [done|].
  intros (Hne & Hrun & Hword & Hinner & Hrest). simpl.
  rewrite <- app_assoc, replace_whitespace_runs_run by done. f_equal.
  destruct word as [|c word].
  - destruct rest as [|piece rest]; [done|]. by destruct Hinner.
  - rewrite replace_whitespace_runs_word by (done || by left).
    f_equal. by apply IH.
Qed.

(** Every string can be cut at its whitespace. *)
Lemma well_split_exists (s : js_string) :
  ∃ first pieces,
    s = with_runs first pieces
    ∧ no_white_space first = true ∧ well_split pieces.
Proof.
  unfold with_runs.
  induction s as [|c s (first & pieces & -> & Hfirst & Hpieces)].
  - by exists [], [].
  - destruct (is_white_space c) eqn:Hc.
    + destruct first as [|d first].
      * destruct pieces as [|[run word] rest].
        -- exists [], [([c], [])]. simpl. by rewrite Hc.
        -- exists [], ((c :: run, word) :: rest). simpl.
           destruct Hpieces as (Hne & Hrun & Hrest). by rewrite Hc, Hrun.
      * exists [], (([c], d :: first) :: pieces). simpl.
        rewrite Hc. simpl in Hfirst. by rewrite Hfirst.
    + exists (c :: first), pieces. simpl. by rewrite Hc, Hfirst.
Qed.

(** X23. The link points at the given url, and its download name is
    [nft_], then the lower-cased stem, then [.png], where the stem is the
    file name with every maximal run of whitespace replaced by one
    underscore and every other character kept: however the file name is
    cut into a first word and runs of whitespace each followed by a word,
    the stem is the first word followed, for each run, by an underscore
    and the word after it. Every file name can be cut in this way. *)
Theorem download_name (toLowerCase : js_string → js_string)
    (url fileName : js_string) :
  let a := handleDownload toLowerCase url fileName in
  href a = url
  ∧ (∀ first pieces,
       fileName = with_runs first pieces →
       no_white_space first = true →
       well_split pieces →
       download a
       = lit "nft_" ++ toLowerCase (with_underscores first pieces) ++ lit ".png")
  ∧ (∃ first pieces,
       fileName = with_runs first pieces
       ∧ no_white_space first = true ∧ well_split pieces).
Proof.
  simpl. split; [done|]. split; [|apply well_split_exists].
  intros first pieces -> Hfirst Hpieces.
  unfold with_runs, with_underscores.
  rewrite replace_whitespace_runs_word by (done || by right).
  by rewrite replace_whitespace_runs_pieces.
Qed.

Lemma download_name_witness :
  download (handleDownload (λ s, s) sample_image
              (lit "golden" ++ [32; 9]%N ++ lit "dragon" ++ [10]%N ++ lit "a b"))
  = lit "nft_golden_dragon_a_b.png".
Proof.
  destruct (download_name (λ s, s) sample_image
              (lit "golden" ++ [32; 9]%N ++ lit "dragon" ++ [10]%N ++ lit "a b"))
    as (_ & Hname & _).
  apply (Hname (lit "golden")
           [ ([32; 9]%N, lit "dragon"); ([10]%N, lit "a"); ([32]%N, lit "b") ]).
  - reflexivity.
  - reflexivity.
  - simpl. repeat split; done.
Defined.

(** ** After a deletion, after an oversized load *)

(** X24. Once the selected asset is deleted there is no selection, and
    none of the controls that act on a selection is offered: the edit
    button, the sliders, Rotate, Reset, Cancel and Save. *)
Theorem delete_selected_disables_editing (item : GeneratedNFT) (st : AppState)
    (ev : Event) :
  selection st = Some (NFT.id item) →
  acts_on_selection ev = true →
  currentNFT (handle (ClickDelete item) st) = None
  ∧ enabled ev (handle (ClickDelete item) st) = false.
Proof.
  intros Hsel Hev. simpl. rewrite deleteFromHistory_unfold.
  destruct (decide (selection st = Some (NFT.id item))) as [_|Hne]; [|done].
  split; [done|].
  destruct ev; try discriminate Hev; simpl;
    unfold editing_panel, has_selection; simpl;
    by rewrite ?andb_false_r.
Qed.

Lemma delete_selected_disables_editing_witness :
  currentNFT (handle (ClickDelete (sample_nft 1)) two_assets_state) = None
  ∧ enabled (ClickSave sample_browser)
      (handle (ClickDelete (sample_nft 1)) two_assets_state) = false.
Proof.
  apply (delete_selected_disables_editing (sample_nft 1) two_assets_state
           (ClickSave sample_browser)); reflexivity.
Defined.

(** X25. A successful generation establishes the capacity bound from any
    history, also one longer than 12 entries as a load can leave it: the
    new history has the new asset at its head and [min 12 (n + 1)] entries,
    where [n] is the number of entries before. *)
Theorem generation_restores_capacity (w : World) (uuid : js_string) (now : Z)
    (st : AppState) (imageUrl : js_string) :
  forallb is_white_space (prompt st) = false →
  (generateNFTImage w (prompt st) (aspectRatio st)).2 = Return imageUrl →
  let st' := (handleGenerate w uuid now st).2 in
  length (history st') = (12 `min` S (length (history st)))%nat
  ∧ head (history st')
    = Some (NFT.mk uuid imageUrl (prompt st) now (aspectRatio st))
  ∧ tail (history st') = take 11 (history st).
Proof.
  intros Hws Hret. simpl. rewrite handleGenerate_called by done. simpl.
  rewrite Hret. unfold handleGenerate_settle, setHistory_with. simpl.
  rewrite create_take. split; [|done].
  rewrite length_take. reflexivity.
Qed.

Lemma generation_restores_capacity_witness :
  length (history (handleGenerate sample_world (sample_uuid 13) 13
                     crowded_state).2) = 12%nat.
Proof.
  destruct (generation_restores_capacity sample_world (sample_uuid 13) 13
              crowded_state sample_image) as (Hlen & _); [reflexivity..|].
  rewrite Hlen. reflexivity.
Defined.
